(** * ToDoList-App/App.js: the task list controller

    A shallow embedding of the [TodoList] component of
    [src/ToDoList-App/App.js]: its React state, the handlers it binds to the
    interface ([fetchTasks], [removeTask], [addTask], [toggleComplete],
    [startEditing], [confirmEdit]), the derived [filteredTasks] and the two
    effects that load and persist the dark-mode preference.

    The handlers talk to three collaborators: the HTTP service behind
    [axios], the key-value store [AsyncStorage], and the user ([Alert],
    [console.error]).  The service is a parameter of the development: an
    arbitrary state machine answering each request by resolving or
    rejecting.  Everything the component does to its collaborators is
    recorded, in order, in a trace. *)

From Stdlib Require Import String Ascii NArith List Lia DecimalString QArith_base.
From stdpp Require Import base tactics option list gmap.
Import ListNotations.

Set Default Proof Using "Type".

(** ** JavaScript strings *)

(** A JavaScript string is a sequence of UTF-16 code units. *)
Abbreviation jsstring := (list N).

(** A string literal of the source (all of them are ASCII). *)
Definition lit (s : string) : jsstring :=
  List.map N_of_ascii (list_ascii_of_string s).

(** [a === b] on strings. *)
Definition str_eqb (a b : jsstring) : bool := bool_decide (a = b).

(** The code units [String.prototype.trim] strips: ECMAScript's WhiteSpace
    (TAB, VT, FF, ZWNBSP and the Unicode space separators) and
    LineTerminator (LF, CR, LS, PS). *)
Definition is_white_space (c : N) : bool :=
  ((c =? 0x0009) || (c =? 0x000B) || (c =? 0x000C) || (c =? 0xFEFF)
   || (c =? 0x0020) || (c =? 0x00A0) || (c =? 0x1680)
   || ((0x2000 <=? c) && (c <=? 0x200A))
   || (c =? 0x202F) || (c =? 0x205F) || (c =? 0x3000)
   || (c =? 0x000A) || (c =? 0x000D) || (c =? 0x2028) || (c =? 0x2029))%N.

Fixpoint trimStart (s : jsstring) : jsstring :=
  match s with
  | c :: s' => if is_white_space c then trimStart s' else s
  | [] => []
  end.

Definition trimEnd (s : jsstring) : jsstring := rev (trimStart (rev s)).

(** [s.trim()] *)
Definition trim (s : jsstring) : jsstring := trimEnd (trimStart s).

(** A title the spec calls empty or whitespace-only. *)
Definition blank (s : jsstring) : Prop := Forall (λ c, is_white_space c = true) s.

#[global] Instance blank_dec (s : jsstring) : Decision (blank s).
Proof. unfold blank. apply _. Defined.

(** [b.toString()] on a boolean. *)
Definition bool_toString (b : bool) : jsstring :=
  if b then lit "true" else lit "false".

(** [x || ''] where [x] is a string or [undefined]: the empty string is
    falsy, just like [undefined]. *)
Definition or_empty (x : option jsstring) : jsstring :=
  match x with
  | Some (c :: s) => c :: s
  | Some [] => []
  | None => []
  end.

(** ** Data model *)

(** The base host of line 6. *)
Definition apiUrl : jsstring := lit "https://pit4-todolist-fastapi.onrender.com".

(** The body of a POST or PUT request: [{ title, completed }]. *)
Record Body := { body_title : jsstring; body_completed : bool }.

Inductive Method := GET | POST | PUT | DELETE.

(** One call of [axios.get], [axios.post], [axios.put] or [axios.delete]. *)
Record Request := { method : Method; url : jsstring; body : option Body }.

#[global] Instance Body_eq_dec : EqDecision Body.
Proof. solve_decision. Defined.
#[global] Instance Method_eq_dec : EqDecision Method.
Proof. solve_decision. Defined.
#[global] Instance Request_eq_dec : EqDecision Request.
Proof. solve_decision. Defined.

(** What a [catch] clause can receive: the rejection of a request, or the
    [TypeError] of a property access on [undefined]. *)
Inductive JsError := AxiosError (reason : jsstring) | TypeError.

(** What the component does to the outside, in order: a request (with the
    way its promise settled), a line on the console, an alert. *)
Inductive Event :=
| Http (r : Request) (resolved : bool)
| ConsoleError (label : jsstring) (error : JsError)
| AlertShown (heading message : jsstring).

#[global] Instance JsError_eq_dec : EqDecision JsError.
Proof. solve_decision. Defined.
#[global] Instance Event_eq_dec : EqDecision Event.
Proof. solve_decision. Defined.

Inductive Completion (A : Type) := Normal (a : A) | Thrown (e : JsError).
Arguments Normal {A} a.
Arguments Thrown {A} e.

Declare Scope js_scope.
Delimit Scope js_scope with js.

Section Controller.

(** The server assigns the identifiers; the client compares them with
    [===] and splices them into URLs. *)
Context {Id : Type} `{EqDecision Id}.
Variable show_id : Id → jsstring.

Record Task := { id : Id; title : jsstring; completed : bool }.

(** The promise of a request settles one way or the other.  Only the
    answer to [GET /fetch/] is read ([response.data]). *)
Inductive Reply := Resolved (data : list Task) | Rejected (reason : jsstring).

(** The remote service: any state machine over any state. *)
Context {World : Type}.
Variable server : Request → World → Reply * World.

(** The six [useState] cells of lines 9-14. *)
Record AppState := {
  tasks : list Task;
  task : jsstring;
  editingIndex : option nat;
  editedTask : jsstring;
  filter : jsstring;
  darkMode : bool
}.

(** The state of the first render. *)
Definition initial : AppState :=
  {| tasks := []; task := []; editingIndex := None; editedTask := [];
     filter := lit "all"; darkMode := false |}.

Record Sys := {
  app : AppState;
  world : World;
  storage : gmap (list N) (list N)
}.

(** *** Handlers as computations *)

(** A handler runs on the system, may change it, and completes normally
    or by throwing; what it changed and emitted before throwing stays. *)
Record Outcome (A : Type) := {
  result : Completion A;
  final : Sys;
  events : list Event
}.
Arguments result {A} o.
Arguments final {A} o.
Arguments events {A} o.

Definition M (A : Type) : Type := Sys → Outcome A.

Definition ret {A} (a : A) : M A :=
  λ s, {| result := Normal a; final := s; events := [] |}.

(** The events [evs] happened first, then the run [o]. *)
Definition after_events {A} (evs : list Event) (o : Outcome A) : Outcome A :=
  match o with
  | {| result := c; final := s; events := evs' |} =>
      {| result := c; final := s; events := evs ++ evs' |}
  end.

Definition bind {A B} (m : M A) (k : A → M B) : M B :=
  λ s, match m s with
       | {| result := Normal a; final := s'; events := evs |} =>
           after_events evs (k a s')
       | {| result := Thrown e; final := s'; events := evs |} =>
           {| result := Thrown e; final := s'; events := evs |}
       end.

Definition throw {A} (e : JsError) : M A :=
  λ s, {| result := Thrown e; final := s; events := [] |}.

(** [try { m } catch (error) { h error }] *)
Definition try_catch {A} (m : M A) (h : JsError → M A) : M A :=
  λ s, match m s with
       | {| result := Normal a; final := s'; events := evs |} =>
           {| result := Normal a; final := s'; events := evs |}
       | {| result := Thrown e; final := s'; events := evs |} =>
           after_events evs (h e s')
       end.

Local Notation "'let*' x ':=' c 'in' k" := (bind c (λ x, k))
  (at level 10, x name, c at level 100, k at level 200) : js_scope.
Local Notation "c '>>' k" := (bind c (λ _, k))
  (at level 95, right associativity) : js_scope.
Local Open Scope js_scope.

Definition getState : M AppState :=
  λ s, {| result := Normal (app s); final := s; events := [] |}.

Definition setState (f : AppState → AppState) : M unit :=
  λ s, {| result := Normal tt;
          final := {| app := f (app s); world := world s; storage := storage s |};
          events := [] |}.

Definition emit (e : Event) : M unit :=
  λ s, {| result := Normal tt; final := s; events := [e] |}.

Definition setTasks (v : list Task) : M unit :=
  setState (λ a, {| tasks := v; task := task a; editingIndex := editingIndex a;
                    editedTask := editedTask a; filter := filter a;
                    darkMode := darkMode a |}).
Definition setTask (v : jsstring) : M unit :=
  setState (λ a, {| tasks := tasks a; task := v; editingIndex := editingIndex a;
                    editedTask := editedTask a; filter := filter a;
                    darkMode := darkMode a |}).
Definition setEditingIndex (v : option nat) : M unit :=
  setState (λ a, {| tasks := tasks a; task := task a; editingIndex := v;
                    editedTask := editedTask a; filter := filter a;
                    darkMode := darkMode a |}).
Definition setEditedTask (v : jsstring) : M unit :=
  setState (λ a, {| tasks := tasks a; task := task a; editingIndex := editingIndex a;
                    editedTask := v; filter := filter a;
                    darkMode := darkMode a |}).
Definition setFilter (v : jsstring) : M unit :=
  setState (λ a, {| tasks := tasks a; task := task a; editingIndex := editingIndex a;
                    editedTask := editedTask a; filter := v;
                    darkMode := darkMode a |}).
Definition setDarkMode (v : bool) : M unit :=
  setState (λ a, {| tasks := tasks a; task := task a; editingIndex := editingIndex a;
                    editedTask := editedTask a; filter := filter a;
                    darkMode := v |}).

(** [await axios.<method>(url, body)]: the request goes out, the service
    moves, and the call returns the data or throws the rejection. *)
Definition axios (r : Request) : M (list Task) :=
  λ s, let '(reply, w) := server r (world s) in
       let s' := {| app := app s; world := w; storage := storage s |} in
       match reply with
       | Resolved data =>
           {| result := Normal data; final := s'; events := [Http r true] |}
       | Rejected reason =>
           {| result := Thrown (AxiosError reason); final := s';
              events := [Http r false] |}
       end.

Definition console_error (label : jsstring) (error : JsError) : M unit :=
  emit (ConsoleError label error).

Definition Alert_alert (heading message : jsstring) : M unit :=
  emit (AlertShown heading message).

Definition AsyncStorage_getItem (key : jsstring) : M (option (list N)) :=
  λ s, {| result := Normal (storage s !! key); final := s; events := [] |}.

Definition AsyncStorage_setItem (key value : jsstring) : M unit :=
  λ s, {| result := Normal tt;
          final := {| app := app s; world := world s;
                      storage := <[key := value]> (storage s) |};
          events := [] |}.

(** *** The requests of lines 33, 43, 54, 66 and 82 *)

Definition fetch_request : Request :=
  {| method := GET; url := apiUrl ++ lit "/fetch/"; body := None |}.

Definition delete_request (i : Id) : Request :=
  {| method := DELETE;
     url := apiUrl ++ lit "/" ++ show_id i ++ lit "/delete/"; body := None |}.

Definition create_request (b : Body) : Request :=
  {| method := POST; url := apiUrl ++ lit "/create/"; body := Some b |}.

Definition update_request (i : Id) (b : Body) : Request :=
  {| method := PUT;
     url := apiUrl ++ lit "/" ++ show_id i ++ lit "/update/"; body := Some b |}.

(** *** The handlers *)

(** Lines 31-39. *)
Definition fetchTasks : M unit :=
  try_catch
    (let* data := axios fetch_request in
     setTasks data)
    (λ error,
       console_error (lit "Error fetching tasks:") error >>
       Alert_alert (lit "Error") (lit "Could not fetch tasks. Please try again later.")).

(** Lines 41-49.  [fetchTasks()] is started without [await]; it is run
    here to its end, where the source lets it finish on its own. *)
Definition removeTask (i : Id) : M unit :=
  try_catch
    (axios (delete_request i) >>
     fetchTasks)
    (λ error,
       console_error (lit "Error deleting task:") error >>
       Alert_alert (lit "Error") (lit "Could not delete task. Please try again later.")).

(** Lines 51-61. *)
Definition addTask : M unit :=
  let* st := getState in
  if str_eqb (trim (task st)) [] then ret tt
  else
    try_catch
      (axios (create_request {| body_title := task st; body_completed := false |}) >>
       setTask [] >>
       fetchTasks)
      (λ error,
         console_error (lit "Error adding task:") error >>
         Alert_alert (lit "Error") (lit "Could not add task. Please try again later.")).

(** Lines 63-72. *)
Definition toggleComplete (i : Id) (completed_now : bool) : M unit :=
  let* st := getState in
  try_catch
    (let t := or_empty (title <$> List.find (λ t, bool_decide (id t = i)) (tasks st)) in
     axios (update_request i {| body_title := t; body_completed := negb completed_now |}) >>
     fetchTasks)
    (λ error,
       console_error (lit "Error toggling task completion:") error >>
       Alert_alert (lit "Error")
         (lit "Could not update task status. Please try again later.")).

(** [x.p] where [x] may be [undefined]. *)
Definition member {A B} (x : option A) (p : A → B) : M B :=
  match x with
  | Some a => ret (p a)
  | None => throw TypeError
  end.

(** Lines 74-77. *)
Definition startEditing (index : nat) : M unit :=
  let* st := getState in
  setEditingIndex (Some index) >>
  let* t := member (tasks st !! index) title in
  setEditedTask t.

(** Lines 79-92. *)
Definition confirmEdit (index : nat) : M unit :=
  let* st := getState in
  let updatedTask := tasks st !! index in
  try_catch
    (let* i := member updatedTask id in
     let* c := member updatedTask completed in
     axios (update_request i {| body_title := editedTask st; body_completed := c |}) >>
     setEditingIndex None >>
     fetchTasks)
    (λ error,
       console_error (lit "Error updating task:") error >>
       Alert_alert (lit "Error") (lit "Could not update task. Please try again later.")).

(** Lines 94-98. *)
Definition filteredTasks (st : AppState) : list Task :=
  List.filter
    (λ task, if str_eqb (filter st) (lit "completed") then completed task
             else if str_eqb (filter st) (lit "pending") then negb (completed task)
             else true)
    (tasks st).

(** Lines 17-22. *)
Definition loadMode : M unit :=
  let* savedMode := AsyncStorage_getItem (lit "darkMode") in
  match savedMode with
  | Some v => setDarkMode (str_eqb v (lit "true"))
  | None => ret tt
  end.

(** Lines 27-29: the effect that runs whenever [darkMode] has changed. *)
Definition persistMode : M unit :=
  let* st := getState in
  AsyncStorage_setItem (lit "darkMode") (bool_toString (darkMode st)).

(** Line 106: the switch, followed by the effect its change triggers. *)
Definition onValueChange : M unit :=
  let* st := getState in
  setDarkMode (negb (darkMode st)) >>
  persistMode.

(** Lines 137, 155, 151 and 159: what pressing a control of the row
    [index] of the rendered list runs; nothing when there is no such row. *)
Definition press_checkbox (index : nat) : M unit :=
  let* st := getState in
  match filteredTasks st !! index with
  | Some item => toggleComplete (id item) (completed item)
  | None => ret tt
  end.

Definition press_edit (index : nat) : M unit :=
  let* st := getState in
  match filteredTasks st !! index with
  | Some _ => if bool_decide (editingIndex st = Some index) then ret tt
              else startEditing index
  | None => ret tt
  end.

Definition press_save (index : nat) : M unit :=
  let* st := getState in
  match filteredTasks st !! index with
  | Some _ => if bool_decide (editingIndex st = Some index) then confirmEdit index
              else ret tt
  | None => ret tt
  end.

Definition press_delete (index : nat) : M unit :=
  let* st := getState in
  match filteredTasks st !! index with
  | Some item => removeTask (id item)
  | None => ret tt
  end.

(** *** The operations of the spec *)

(** [create] takes its title from the input cell, [update] its new title
    from the edit cell and its task from the row being edited. *)
Inductive Operation :=
| fetchAll
| create
| toggle (i : Id) (completed_now : bool)
| update (index : nat)
| remove (i : Id).

Definition perform (op : Operation) : M unit :=
  match op with
  | fetchAll => fetchTasks
  | create => addTask
  | toggle i c => toggleComplete i c
  | update index => confirmEdit index
  | remove i => removeTask i
  end.

(** How many times the full list was asked for. *)
Definition is_fetch (e : Event) : bool :=
  match e with
  | Http r _ => bool_decide (r = fetch_request)
  | _ => false
  end.

Definition fetches (evs : list Event) : nat := length (List.filter is_fetch evs).

(** The application is closed and started again: the cells are back to
    their initial values, the store is what it was.  This is the state of
    the first render; what the effects of lines 16-29 then do to it is
    [mount], of which [loadMode] is the part that reads the mode. *)
Definition relaunch (s : Sys) : Sys :=
  {| app := initial; world := world s; storage := storage s |}.

End Controller.

Arguments Task Id : clear implicits.
Arguments Reply Id : clear implicits.
Arguments AppState Id : clear implicits.
Arguments Operation Id : clear implicits.
Arguments Sys Id World : clear implicits.
Arguments Outcome Id World A : clear implicits.
Arguments M Id World A : clear implicits.
Arguments result {Id World A} o.
Arguments final {Id World A} o.
Arguments events {Id World A} o.

(** ** The rendered interface

    What lines 102-167 put on screen and bind to the handlers: the switch,
    the input with its button, the three filter buttons, and one row per
    task of the filtered list. *)

(** Line 121: the filter buttons, in order. *)
Definition filter_types : list jsstring :=
  [lit "all"; lit "completed"; lit "pending"].

(** Lines 141-147: a row shows the title (struck through when completed)
    or, while it is edited, the edit field. *)
Inductive RowBody :=
| TitleText (text : jsstring) (struck : bool)
| EditInput (value : jsstring).

(** Lines 150-158: the first button of a row. *)
Inductive RowButton := EditButton | SaveButton.

Record Row := { row_checked : bool; row_body : RowBody; row_button : RowButton }.

(** What the user can do with what is on screen. *)
Inductive Gesture :=
| FlipSwitch
| TypeTask (text : jsstring)
| PressAdd
| PressFilter (k : nat)
| PressCheckbox (index : nat)
| TypeEdit (text : jsstring)
| PressEdit (index : nat)
| PressSave (index : nat)
| PressDelete (index : nat).

Section Interface.

Context {Id : Type} `{EqDecision Id} (show_id : Id → jsstring).
Context {World : Type} (server : Request → World → Reply Id * World).

(** Lines 122-128: a filter button is drawn active when it is the current
    filter. *)
Definition filter_buttons (st : AppState Id) : list (jsstring * bool) :=
  List.map (λ type, (type, str_eqb (filter st) type)) filter_types.

(** Lines 132-164. *)
Definition rows (st : AppState Id) : list Row :=
  imap (λ index item,
          if bool_decide (editingIndex st = Some index)
          then {| row_checked := completed item;
                  row_body := EditInput (editedTask st);
                  row_button := SaveButton |}
          else {| row_checked := completed item;
                  row_body := TitleText (title item) (completed item);
                  row_button := EditButton |})
       (filteredTasks st).

(** Line 125. *)
Definition press_filter (k : nat) : M Id World () :=
  match filter_types !! k with
  | Some type => setFilter type
  | None => ret ()
  end.

(** Line 143: the edit field exists only in the row being edited. *)
Definition type_edit (text : jsstring) : M Id World () :=
  bind getState (λ st,
    match editingIndex st with
    | Some index =>
        match filteredTasks st !! index with
        | Some _ => setEditedTask text
        | None => ret ()
        end
    | None => ret ()
    end).

Definition gesture (g : Gesture) : M Id World () :=
  match g with
  | FlipSwitch => onValueChange
  | TypeTask text => setTask text
  | PressAdd => addTask server
  | PressFilter k => press_filter k
  | PressCheckbox index => press_checkbox show_id server index
  | TypeEdit text => type_edit text
  | PressEdit index => press_edit index
  | PressSave index => press_save show_id server index
  | PressDelete index => press_delete show_id server index
  end.

(** One gesture after the other; a gesture that threw would end the
    session. *)
Fixpoint gestures (gs : list Gesture) : M Id World () :=
  match gs with
  | [] => ret ()
  | g :: gs' => bind (gesture g) (λ _, gestures gs')
  end.

(** Lines 16-29, after the first render.  The first effect starts
    [loadMode], which asks the store for the saved mode, and [fetchTasks];
    the second effect then writes the mode of the first render.  When the
    saved mode arrives [loadMode] sets the cell, and if that changes the
    mode the second effect runs again.  The store serves the read before
    the write, the two having been issued in that order; [fetchTasks] is
    run to its end where it is started, as in the handlers. *)
Definition mount : M Id World () :=
  bind (AsyncStorage_getItem (lit "darkMode")) (λ savedMode,
  bind (fetchTasks server) (λ _,
  bind persistMode (λ _,
  match savedMode with
  | Some v =>
      bind getState (λ st,
      bind (setDarkMode (str_eqb v (lit "true"))) (λ _,
      if Bool.eqb (str_eqb v (lit "true")) (darkMode st) then ret ()
      else persistMode))
  | None => ret ()
  end))).

End Interface.

(** ** The contract of the operations

    What the spec has each operation send (its section 4.1, over the
    routes of its section 6), written down on its own, without the
    handlers or the requests they build, to hold the handlers against. *)

Section Contract.

Context {Id : Type} `{EqDecision Id} (show_id : Id → jsstring).

(** The current title for an identifier: that of the first task carrying
    it, the empty string when no task does. *)
Fixpoint spec_title (i : Id) (l : list (Task Id)) : jsstring :=
  match l with
  | [] => []
  | t :: l' => if decide (id t = i) then title t else spec_title i l'
  end.

(** The request an operation is to send first; none for a creation with
    an empty or whitespace-only title, nor for an update of a row that the
    list does not have. *)
Definition spec_request (op : Operation Id) (st : AppState Id) : option Request :=
  match op with
  | fetchAll =>
      Some {| method := GET; url := apiUrl ++ lit "/fetch/"; body := None |}
  | create =>
      if decide (blank (task st)) then None
      else Some {| method := POST; url := apiUrl ++ lit "/create/";
                   body := Some {| body_title := task st;
                                   body_completed := false |} |}
  | toggle i completed_now =>
      Some {| method := PUT;
              url := apiUrl ++ lit "/" ++ show_id i ++ lit "/update/";
              body := Some {| body_title := spec_title i (tasks st);
                              body_completed := negb completed_now |} |}
  | update index =>
      match tasks st !! index with
      | Some t =>
          Some {| method := PUT;
                  url := apiUrl ++ lit "/" ++ show_id (id t) ++ lit "/update/";
                  body := Some {| body_title := editedTask st;
                                  body_completed := completed t |} |}
      | None => None
      end
  | remove i =>
      Some {| method := DELETE;
              url := apiUrl ++ lit "/" ++ show_id i ++ lit "/delete/";
              body := None |}
  end.

End Contract.

(** ** The style sheet *)

(** A style value is a string or a number ([1.5] is three halves). *)
Inductive StyleValue := Str (s : string) | Num (q : Q).

#[global] Instance Q_eq_dec : EqDecision Q.
Proof. solve_decision. Defined.
#[global] Instance StyleValue_eq_dec : EqDecision StyleValue.
Proof. solve_decision. Defined.

(** A style object: its properties in the order of the source. *)
Abbreviation Style := (list (string * StyleValue)).

(** Lines 170-270: the object handed to [StyleSheet.create]. *)
Definition getStyles (darkMode : bool) : list (string * Style) :=
  [ ("container",
      [ ("flex", Num (1 # 1));
        ("backgroundColor", Str (if darkMode then "#222" else "#eae0c8"));
        ("alignItems", Str "center");
        ("paddingTop", Num (50 # 1));
        ("paddingHorizontal", Num (20 # 1)) ]);
    ("title",
      [ ("fontSize", Num (24 # 1));
        ("fontWeight", Str "bold");
        ("color", Str (if darkMode then "#fff" else "#000"));
        ("marginBottom", Num (10 # 1)) ]);
    ("input",
      [ ("width", Str "100%");
        ("padding", Num (12 # 1));
        ("marginVertical", Num (10 # 1));
        ("backgroundColor", Str (if darkMode then "#6F4E37" else "#b08968"));
        ("color", Str (if darkMode then "#fff" else "#000"));
        ("borderRadius", Num (8 # 1));
        ("borderWidth", Num (1 # 1));
        ("borderColor", Str (if darkMode then "#888" else "#444")) ]);
    ("button",
      [ ("backgroundColor", Str "#b08968");
        ("padding", Num (12 # 1));
        ("borderRadius", Num (8 # 1));
        ("marginBottom", Num (10 # 1)) ]);
    ("buttonText",
      [ ("color", Str "#fff");
        ("fontWeight", Str "bold");
        ("textAlign", Str "center") ]);
    ("filterContainer",
      [ ("flexDirection", Str "row");
        ("justifyContent", Str "space-around");
        ("width", Str "100%");
        ("marginBottom", Num (10 # 1)) ]);
    ("filterButton",
      [ ("backgroundColor", Str "#6F4E37");
        ("padding", Num (8 # 1));
        ("borderRadius", Num (8 # 1)) ]);
    ("activeFilter",
      [ ("backgroundColor", Str "#f4e3d7") ]);
    ("taskItem",
      [ ("flexDirection", Str "row");
        ("alignItems", Str "center");
        ("backgroundColor", Str (if darkMode then "#333" else "#f4e3d7"));
        ("borderRadius", Num (8 # 1));
        ("padding", Num (10 # 1));
        ("marginVertical", Num (5 # 1));
        ("borderWidth", Num (3 # 2));
        ("borderColor", Str (if darkMode then "#aaa" else "#6F4E37")) ]);
    ("checkbox",
      [ ("width", Num (24 # 1));
        ("height", Num (24 # 1));
        ("borderRadius", Num (4 # 1));
        ("borderWidth", Num (2 # 1));
        ("borderColor", Str (if darkMode then "#ccc" else "#333"));
        ("alignItems", Str "center");
        ("justifyContent", Str "center");
        ("backgroundColor", Str (if darkMode then "#444" else "#fff")) ]);
    ("checkboxChecked",
      [ ("backgroundColor", Str "#6F4E37");
        ("borderColor", Str "#6F4E37") ]);
    ("checkboxText",
      [ ("color", Str "#fff");
        ("fontWeight", Str "bold") ]);
    ("taskText",
      [ ("fontSize", Num (14 # 1));
        ("color", Str (if darkMode then "#fff" else "#000")) ]);
    ("completed",
      [ ("textDecorationLine", Str "line-through") ]);
    ("taskActions",
      [ ("flexDirection", Str "row");
        ("gap", Num (10 # 1)) ]);
    ("actionButton",
      [ ("backgroundColor", Str "#6F4E37");
        ("paddingVertical", Num (6 # 1));
        ("paddingHorizontal", Num (12 # 1));
        ("borderRadius", Num (6 # 1));
        ("marginLeft", Num (5 # 1)) ]);
    ("deleteButton",
      [ ("backgroundColor", Str "#8B0000") ]) ]%string.

(** [styles.name.prop]; neither the style nor the property need exist. *)
Definition field {V} (key : string) (o : list (string * V)) : option V :=
  snd <$> List.find (λ kv, String.eqb (fst kv) key) o.

Definition style_prop (sheet : list (string * Style)) (name prop : string)
  : option StyleValue :=
  match field name sheet with
  | Some style => field prop style
  | None => None
  end.

(** The style array of a control: where two of its styles set the same
    property, the later one wins; a style under a false condition is
    skipped. *)
Fixpoint merged_prop (prop : string) (layers : list (option Style))
  : option StyleValue :=
  match layers with
  | [] => None
  | layer :: rest =>
      match merged_prop prop rest with
      | Some v => Some v
      | None => match layer with
                | Some style => field prop style
                | None => None
                end
      end
  end.

(** [cond && style] *)
Definition when (cond : bool) (style : option Style) : option Style :=
  if cond then style else None.

(** A row is in edit when it offers Save. *)
Definition in_edit (r : Row) : bool :=
  match row_button r with
  | SaveButton => true
  | EditButton => false
  end.

(** Lines 102-165: every piece of text the interface draws, as the style
    array of the text and the style array of the nearest box around it that
    has a background.  The placeholder of the input (lines 110-111) is
    drawn in its [placeholderTextColor], inside the input.  [active] is
    whether the filter button is the current filter, [completed] whether
    the row's task is completed; the check mark is only drawn in a
    completed row. *)
Definition drawn_texts (darkMode active completed : bool)
  : list (list (option Style) * list (option Style)) :=
  let styles := getStyles darkMode in
  let st name := field name styles in
  [ ([st "title"%string], [st "container"%string]);
    ([st "input"%string], [st "input"%string]);
    ([Some [("color"%string,
             Str (if darkMode then "#ccc"%string else "#000"%string))]],
     [st "input"%string]);
    ([st "buttonText"%string], [st "button"%string]);
    ([st "buttonText"%string], [st "filterButton"%string; when active (st "activeFilter"%string)]) ]
  ++ (if completed
      then [ ([st "checkboxText"%string],
              [st "checkbox"%string; when completed (st "checkboxChecked"%string)]) ]
      else [])
  ++ [ ([st "taskText"%string; when completed (st "completed"%string)], [st "taskItem"%string]);
       ([st "buttonText"%string], [st "actionButton"%string]);
       ([st "buttonText"%string], [st "actionButton"%string; st "deleteButton"%string]) ].

(** The properties that hold a colour. *)
Definition colour_props : list string :=
  ["backgroundColor"; "color"; "borderColor"]%string.

(** ** A concrete setting

    Numeric identifiers printed in decimal, and three services: one that
    is unreachable, one that answers every request with the list it holds,
    one that gives up after a number of requests. *)

Definition show_N (n : N) : jsstring :=
  lit (NilEmpty.string_of_uint (N.to_uint n)).

Definition server_down : Request → unit → Reply N * unit :=
  λ _ w, (Rejected (lit "Network Error"), w).

Definition server_static : Request → list (Task N) → Reply N * list (Task N) :=
  λ _ db, (Resolved db, db).

(** A service that accepts the first [n] requests and rejects the rest. *)
Definition server_flaky (db : list (Task N)) : Request → nat → Reply N * nat :=
  λ _ n, match n with
         | O => (Rejected (lit "Network Error"), O)
         | S n' => (Resolved db, n')
         end.

Definition buy_milk : Task N :=
  {| id := 1%N; title := lit "buy milk"; completed := false |}.
Definition call_mom : Task N :=
  {| id := 2%N; title := lit "call mom"; completed := true |}.
Definition pay_rent : Task N :=
  {| id := 3%N; title := lit "pay rent"; completed := false |}.

Definition three_tasks : list (Task N) := [buy_milk; call_mom; pay_rent].

Definition sys_of {World} (a : AppState N) (w : World) : Sys N World :=
  {| app := a; world := w; storage := ∅ |}.

(** The list on screen under a filter, nothing typed, nothing in edit. *)
Definition showing (l : list (Task N)) (f : jsstring) : AppState N :=
  {| tasks := l; task := []; editingIndex := None; editedTask := [];
     filter := f; darkMode := false |}.

(** The same with a title typed into the input. *)
Definition typed (l : list (Task N)) (t : jsstring) : AppState N :=
  {| tasks := l; task := t; editingIndex := None; editedTask := [];
     filter := lit "all"; darkMode := false |}.

(** A device on which [v] was saved as the mode, at launch. *)
Definition saved_mode (v : jsstring) : Sys N () :=
  {| app := initial; world := (); storage := {[ lit "darkMode" := v ]} |}.

(** A session: type a title, add it, show the completed tasks, tick the
    first row, edit it, go dark. *)
Definition a_session : list Gesture :=
  [TypeTask (lit "buy milk"); PressAdd; PressFilter 1; PressCheckbox 0;
   PressEdit 0; TypeEdit (lit "call dad"); PressSave 0; FlipSwitch].

(** The same with the row [index] in edit and [e] in its field. *)
Definition editing (l : list (Task N)) (f : jsstring) (index : nat) (e : jsstring)
  : AppState N :=
  {| tasks := l; task := []; editingIndex := Some index; editedTask := e;
     filter := f; darkMode := false |}.

(** ** Facts about strings *)

Lemma trimStart_nil_iff (s : jsstring) : trimStart s = [] ↔ blank s.
Proof.
  unfold blank. induction s as [|c s IH]; simpl.
  - split; [constructor | reflexivity].
  - destruct (is_white_space c) eqn:E.
    + rewrite IH. split.
      * intros H. constructor; assumption.
      * intros H. inversion H; assumption.
    + split; [discriminate|].
      intros H. inversion H; congruence.
Qed.

Lemma trimStart_blank_suffix (s : jsstring) :
  ∃ p, s = p ++ trimStart s ∧ blank p.
Proof.
  induction s as [|c s (p & Hs & Hp)]; simpl.
  - exists []. split; [reflexivity | constructor].
  - destruct (is_white_space c) eqn:E.
    + exists (c :: p). split.
      * simpl. congruence.
      * constructor; assumption.
    + exists []. split; [reflexivity | constructor].
Qed.

Lemma blank_app (p q : jsstring) : blank (p ++ q) ↔ blank p ∧ blank q.
Proof. apply Forall_app. Qed.

Lemma blank_rev (s : jsstring) : blank (rev s) ↔ blank s.
Proof.
  unfold blank. split; intros H.
  - rewrite <- (rev_involutive s). apply Forall_rev. exact H.
  - apply Forall_rev. exact H.
Qed.

Lemma rev_nil_inv {A} (l : list A) : rev l = [] → l = [].
Proof.
  intros H. rewrite <- (rev_involutive l), H. reflexivity.
Qed.

(** The test of line 52: [task.trim() === ''] holds exactly for the blank
    strings. *)
Lemma trim_empty_iff (s : jsstring) : trim s = [] ↔ blank s.
Proof.
  unfold trim, trimEnd. split.
  - intros H. apply rev_nil_inv in H.
    apply trimStart_nil_iff in H. apply (proj1 (blank_rev _)) in H.
    destruct (trimStart_blank_suffix s) as (p & Hs & Hp).
    assert (Hb : blank (p ++ trimStart s)) by (apply blank_app; split; [exact Hp | exact H]).
    rewrite <- Hs in Hb. exact Hb.
  - intros H. apply trimStart_nil_iff in H. rewrite H. reflexivity.
Qed.

Lemma str_eqb_true (a b : jsstring) : str_eqb a b = true ↔ a = b.
Proof. unfold str_eqb. apply bool_decide_eq_true. Qed.

Lemma or_empty_Some (s : jsstring) : or_empty (Some s) = s.
Proof. destruct s; reflexivity. Qed.

(** ** The handlers, case by case *)

Arguments lit : simpl never.
Arguments apiUrl : simpl never.
Arguments fetch_request : simpl never.
Arguments create_request : simpl never.
Arguments update_request : simpl never.
Arguments delete_request : simpl never.

(** Unfold a handler down to the calls of the service. *)
Ltac handler :=
  unfold perform;
  unfold removeTask, addTask, toggleComplete, confirmEdit, startEditing,
    loadMode, onValueChange;
  unfold fetchTasks, persistMode;
  unfold try_catch, bind, after_events, ret, throw, member, axios, getState, setState,
    setTasks, setTask, setEditingIndex, setEditedTask, setFilter, setDarkMode,
    console_error, Alert_alert, emit, AsyncStorage_getItem, AsyncStorage_setItem;
  simpl.

(** Split on the way the next request settles. *)
Ltac settle :=
  match goal with
  | |- context [?server ?r ?w] =>
      match type of (server r w) with
      | (Reply _ * _)%type =>
          let E := fresh "Hreply" in
          destruct (server r w) as [[?data|?reason] ?w'] eqn:E; simpl
      end
  end.

(** Go through the members of an explicit list of events. *)
Ltac in_events :=
  repeat match goal with
    | H : _ ∈ [] |- _ => apply elem_of_nil in H; destruct H
    | H : _ ∈ _ :: _ |- _ => apply elem_of_cons in H; destruct H as [H|H]
    end;
  simplify_eq.

(** Exhibit the alert in an explicit list of events. *)
Ltac alert_shown :=
  do 2 eexists;
  repeat first [apply list_elem_of_here | apply list_elem_of_further].

Section Properties.

Context {Id : Type} `{EqDecision Id} (show_id : Id → jsstring).
Context {World : Type} (server : Request → World → Reply Id * World).

Implicit Types (s : Sys Id World) (st : AppState Id) (op : Operation Id).
Implicit Types (r : Request) (i : Id) (index : nat).

Lemma fetch_request_GET r : method r ≠ GET → r ≠ fetch_request.
Proof. intros H ->. apply H. reflexivity. Qed.

Lemma is_fetch_fetch ok : is_fetch (Http fetch_request ok) = true.
Proof. unfold is_fetch. apply bool_decide_eq_true_2. reflexivity. Qed.

Lemma is_fetch_other r ok : r ≠ fetch_request → is_fetch (Http r ok) = false.
Proof. intros H. unfold is_fetch. apply bool_decide_eq_false_2. exact H. Qed.

Lemma fetches_cons e evs :
  fetches (e :: evs) = (if is_fetch e then S (fetches evs) else fetches evs).
Proof. unfold fetches. cbn [List.filter]. destruct (is_fetch e); reflexivity. Qed.

Lemma fetches_cons_fetch ok evs :
  fetches (Http fetch_request ok :: evs) = S (fetches evs).
Proof. rewrite fetches_cons, is_fetch_fetch. reflexivity. Qed.

(** [fetchTasks] asks once; it replaces the list when the answer comes,
    and otherwise reports and leaves every cell as it was. *)
Lemma fetchTasks_cases s :
  (∃ l w, server fetch_request (world s) = (Resolved l, w) ∧
     fetchTasks server s =
       {| result := Normal tt;
          final := {| app := {| tasks := l; task := task (app s);
                                editingIndex := editingIndex (app s);
                                editedTask := editedTask (app s);
                                filter := filter (app s);
                                darkMode := darkMode (app s) |};
                      world := w; storage := storage s |};
          events := [Http fetch_request true] |}) ∨
  (∃ e w label heading message,
     server fetch_request (world s) = (Rejected e, w) ∧
     fetchTasks server s =
       {| result := Normal tt;
          final := {| app := app s; world := w; storage := storage s |};
          events := [Http fetch_request false;
                     ConsoleError label (AxiosError e);
                     AlertShown heading message] |}).
Proof.
  handler. settle.
  - left. eauto.
  - right. eauto 10.
Qed.

(** The predicate of [filteredTasks], filter by filter. *)
Lemma filteredTasks_all st :
  filter st = lit "all" → filteredTasks st = tasks st.
Proof.
  intros Hf. unfold filteredTasks. rewrite Hf.
  induction (tasks st) as [|t l IH]; [reflexivity|].
  simpl in *. rewrite IH. reflexivity.
Qed.

Lemma filteredTasks_completed st :
  filter st = lit "completed" → filteredTasks st = List.filter completed (tasks st).
Proof. intros Hf. unfold filteredTasks. rewrite Hf. reflexivity. Qed.

Lemma filteredTasks_pending st :
  filter st = lit "pending" →
  filteredTasks st = List.filter (λ t, negb (completed t)) (tasks st).
Proof. intros Hf. unfold filteredTasks. rewrite Hf. reflexivity. Qed.

Lemma update_request_not_fetch i b : update_request show_id i b ≠ fetch_request.
Proof. apply fetch_request_GET. discriminate. Qed.

Lemma create_request_not_fetch b : create_request b ≠ fetch_request.
Proof. apply fetch_request_GET. discriminate. Qed.

Lemma delete_request_not_fetch i : delete_request show_id i ≠ fetch_request.
Proof. apply fetch_request_GET. discriminate. Qed.

(** [Array.prototype.find] returns the first element that passes. *)
Lemma find_first {A} (p : A → bool) (l : list A) :
  match List.find p l with
  | Some x => ∃ pre post, l = pre ++ x :: post ∧ p x = true ∧
                          ∀ y, y ∈ pre → p y = false
  | None => ∀ y, y ∈ l → p y = false
  end.
Proof.
  induction l as [|a l IH]; simpl.
  - intros y Hy. apply elem_of_nil in Hy. destruct Hy.
  - destruct (p a) eqn:Ha.
    + exists [], l. split; [reflexivity|]. split; [exact Ha|].
      intros y Hy. apply elem_of_nil in Hy. destruct Hy.
    + destruct (List.find p l) as [x|].
      * destruct IH as (pre & post & -> & Hx & Hpre).
        exists (a :: pre), post. split; [reflexivity|]. split; [exact Hx|].
        intros y Hy. apply elem_of_cons in Hy. destruct Hy as [->|Hy]; auto.
      * intros y Hy. apply elem_of_cons in Hy. destruct Hy as [->|Hy]; auto.
Qed.

(** A row of the rendered list has an index inside the full list. *)
Lemma rendered_row_in_range st index :
  is_Some (filteredTasks st !! index) → is_Some (tasks st !! index).
Proof.
  rewrite !lookup_lt_is_Some. unfold filteredTasks. intros Hlt.
  eapply Nat.lt_le_trans; [exact Hlt | apply List.filter_length_le].
Qed.

Lemma startEditing_in_range s index (t : Task Id) :
  tasks (app s) !! index = Some t →
  result (startEditing index s) = Normal tt ∧
  editingIndex (app (final (startEditing index s))) = Some index ∧
  editedTask (app (final (startEditing index s))) = title t.
Proof. intros Ht. handler. rewrite Ht. simpl. auto. Qed.

Lemma startEditing_out_of_range s index :
  tasks (app s) !! index = None →
  result (startEditing index s) = Thrown TypeError.
Proof. intros Ht. handler. rewrite Ht. reflexivity. Qed.

(** Outside the list [confirmEdit] fails on [updatedTask.id], inside its
    [try]: it reports, and no request leaves. *)
Lemma confirmEdit_out_of_range s index :
  tasks (app s) !! index = None →
  final (confirmEdit show_id server index s) = s ∧
  ∃ label heading message,
    events (confirmEdit show_id server index s) =
      [ConsoleError label TypeError; AlertShown heading message].
Proof.
  intros Ht. handler. rewrite Ht. simpl. split; [destruct s; reflexivity|].
  eauto.
Qed.

(** Inside the list [confirmEdit] starts with the update request for the
    task found at [index]. *)
Lemma confirmEdit_in_range s index (t : Task Id) :
  tasks (app s) !! index = Some t →
  ∃ ok rest,
    events (confirmEdit show_id server index s) =
      Http (update_request show_id (id t)
              {| body_title := editedTask (app s);
                 body_completed := completed t |}) ok :: rest.
Proof.
  intros Ht. handler. rewrite Ht. simpl. settle; [settle|]; eauto.
Qed.

(** C1.  After a fetch that returned the list [l], the rendered list is
    [l] itself under the filter [all], the tasks of [l] whose [completed]
    flag is true under [completed], and those whose flag is false under
    [pending] (in the order of [l], each as often as in [l]). *)
Theorem filtered_view_of_fetch s (l : list (Task Id)) (w : World) (f : jsstring) :
  server fetch_request (world s) = (Resolved l, w) →
  let st := app (final (setFilter f (final (fetchTasks server s)))) in
  tasks st = l ∧
  (f = lit "all" → filteredTasks st = l ∧ length (filteredTasks st) = length l) ∧
  (f = lit "completed" → filteredTasks st = List.filter completed l) ∧
  (f = lit "pending" → filteredTasks st = List.filter (λ t, negb (completed t)) l).
Proof.
  intros Hfetch st.
  assert (Htasks : tasks st = l).
  { subst st. destruct (fetchTasks_cases s) as
      [(l' & w' & Hs & ->) | (e & w' & lbl & h & m & Hs & _)];
      rewrite Hfetch in Hs; [|discriminate].
    injection Hs as -> ->. reflexivity. }
  assert (Hfilter : filter st = f) by reflexivity.
  split; [exact Htasks|]. split; [|split].
  - intros ->. rewrite filteredTasks_all, Htasks; [split; reflexivity | exact Hfilter].
  - intros ->. rewrite filteredTasks_completed, Htasks; [reflexivity | exact Hfilter].
  - intros ->. rewrite filteredTasks_pending, Htasks; [reflexivity | exact Hfilter].
Qed.

(** C4.  With an empty or whitespace-only title in the input, [addTask]
    sends nothing and changes nothing. *)
Theorem blank_title_is_noop s :
  blank (task (app s)) →
  addTask server s = {| result := Normal tt; final := s; events := [] |}.
Proof.
  intros Hb. apply trim_empty_iff in Hb.
  unfold addTask, bind, getState, ret. simpl.
  rewrite Hb. reflexivity.
Qed.

Lemma addTask_not_blank s :
  ¬ blank (task (app s)) → str_eqb (trim (task (app s))) [] = false.
Proof.
  intros Hb. destruct (str_eqb _ _) eqn:E; [|reflexivity].
  exfalso. apply Hb, trim_empty_iff, str_eqb_true. exact E.
Qed.

(** C10.  A title that survives the emptiness test goes into the
    creation request as typed: the request sent is the POST to [/create/]
    whose body holds the input cell itself, not its trimmed form, which is
    only compared with the empty string. *)
Theorem title_sent_verbatim s :
  trim (task (app s)) ≠ [] →
  ∃ ok rest,
    events (addTask server s) =
      Http {| method := POST; url := apiUrl ++ lit "/create/";
              body := Some {| body_title := task (app s);
                              body_completed := false |} |} ok :: rest.
Proof.
  intros Hne.
  assert (Hb : ¬ blank (task (app s))).
  { intros Hb. apply Hne, trim_empty_iff. exact Hb. }
  apply addTask_not_blank in Hb.
  handler. rewrite Hb. settle.
  - settle; do 2 eexists; reflexivity.
  - do 2 eexists; reflexivity.
Qed.

(** C8.  What the persisting effect writes for the preference is what
    [loadMode] reads back after a restart: the string is ["true"] or
    ["false"], and comparing it with ["true"] gives the boolean again. *)
Theorem dark_mode_round_trip (b : bool) s :
  str_eqb (bool_toString b) (lit "true") = b ∧
  storage (final (persistMode (final (setDarkMode b s)))) !! lit "darkMode"
    = Some (bool_toString b) ∧
  darkMode (app (final (loadMode
    (relaunch (final (persistMode (final (setDarkMode b s)))))))) = b.
Proof.
  assert (Hs : str_eqb (bool_toString b) (lit "true") = b)
    by (destruct b; reflexivity).
  split; [exact Hs|]. split.
  - handler. apply lookup_insert_eq.
  - handler. unfold relaunch. simpl. rewrite lookup_insert_eq. simpl. exact Hs.
Qed.

Lemma toggle_title_spec i (l : list (Task Id)) :
  or_empty (title <$> List.find (λ t, bool_decide (id t = i)) l) = spec_title i l.
Proof.
  induction l as [|t l IH]; simpl; [reflexivity|].
  destruct (decide (id t = i)) as [Heq|Hne].
  - rewrite bool_decide_eq_true_2 by exact Heq. simpl. apply or_empty_Some.
  - rewrite bool_decide_eq_false_2 by exact Hne. exact IH.
Qed.

(** Read the requests written out in a statement as the ones the handlers
    build. *)
Ltac fold_requests :=
  change (Build_Request GET (apiUrl ++ lit "/fetch/") None)
    with fetch_request in *;
  repeat match goal with
    | |- context [Build_Request POST (apiUrl ++ lit "/create/") (Some ?b)] =>
        change (Build_Request POST (apiUrl ++ lit "/create/") (Some b))
          with (create_request b) in *
    | |- context [Build_Request PUT
                    (apiUrl ++ lit "/" ++ ?f ?i ++ lit "/update/") (Some ?b)] =>
        change (Build_Request PUT
                  (apiUrl ++ lit "/" ++ f i ++ lit "/update/") (Some b))
          with (update_request f i b) in *
    | |- context [Build_Request DELETE
                    (apiUrl ++ lit "/" ++ ?f ?i ++ lit "/delete/") None] =>
        change (Build_Request DELETE
                  (apiUrl ++ lit "/" ++ f i ++ lit "/delete/") None)
          with (delete_request f i) in *
    end.

(** The request the contract names for an operation, case by case. *)
Ltac contract_request Hreq :=
  unfold spec_request in Hreq; cbv beta iota in Hreq;
  repeat match type of Hreq with
    | context [decide ?P] => destruct (decide P)
    | context [match ?x !! ?n with _ => _ end] =>
        let E := fresh "Hrow" in destruct (x !! n) eqn:E
    end;
  simplify_eq; fold_requests.

(** C2.  When the service rejects the request of an operation, whichever
    of the five it is, the operation ends with every cell of the state,
    the task list among them, as it was, and what it has done is: sent
    that request, written the rejection on the console, shown an alert.
    When the request is accepted and it is the fetch after it that the
    service rejects, the task list is again as it was and the alert is
    again shown. *)
Theorem failed_call_keeps_tasks op s r (reply : Reply Id) (w : World) :
  spec_request show_id op (app s) = Some r →
  server r (world s) = (reply, w) →
  let o := perform show_id server op s in
  (∀ reason,
     reply = Rejected reason →
     app (final o) = app s ∧
     ∃ label message,
       events o = [Http r false; ConsoleError label (AxiosError reason);
                   AlertShown (lit "Error") message]) ∧
  (∀ data reason w',
     reply = Resolved data → op ≠ fetchAll →
     server {| method := GET; url := apiUrl ++ lit "/fetch/"; body := None |} w = (Rejected reason, w') →
     tasks (app (final o)) = tasks (app s) ∧
     ∃ label message,
       events o = [Http r true; Http {| method := GET; url := apiUrl ++ lit "/fetch/"; body := None |} false;
                   ConsoleError label (AxiosError reason);
                   AlertShown (lit "Error") message]).
Proof.
  intros Hreq Hserver. cbv zeta.
  destruct op as [| |i c|index|i]; contract_request Hreq.
  - handler. rewrite Hserver. split.
    + intros reason ->. simpl. split; [reflexivity|]. eauto.
    + intros data reason w' -> Hne. contradiction.
  - assert (Hb : str_eqb (trim (task (app s))) [] = false)
      by (apply addTask_not_blank; assumption).
    handler. rewrite Hb, Hserver. split.
    + intros reason ->. simpl. split; [reflexivity|]. eauto.
    + intros data reason w' -> _ Hfetch. simpl. rewrite Hfetch. simpl.
      split; [reflexivity|]. eauto.
  - handler. rewrite toggle_title_spec, Hserver. split.
    + intros reason ->. simpl. split; [reflexivity|]. eauto.
    + intros data reason w' -> _ Hfetch. simpl. rewrite Hfetch. simpl.
      split; [reflexivity|]. eauto.
  - handler. rewrite Hrow. simpl. rewrite Hserver. split.
    + intros reason ->. simpl. split; [reflexivity|]. eauto.
    + intros data reason w' -> _ Hfetch. simpl. rewrite Hfetch. simpl.
      split; [reflexivity|]. eauto.
  - handler. rewrite Hserver. split.
    + intros reason ->. simpl. split; [reflexivity|]. eauto.
    + intros data reason w' -> _ Hfetch. simpl. rewrite Hfetch. simpl.
      split; [reflexivity|]. eauto.
Qed.

(** C3.  [toggleComplete(id, completed)] sends one update request: the
    PUT to [/id/update/] whose body has, as [completed], the negation of
    the flag it was given, which for a press on a rendered row is the flag
    of the task shown there, and, as [title], the title of the first task
    of the local list with that [id], or the empty string when the list
    has none. *)
Theorem toggle_sends_negation i (c : bool) s :
  (∃ t ok rest,
     events (toggleComplete show_id server i c s) =
       Http {| method := PUT;
               url := apiUrl ++ lit "/" ++ show_id i ++ lit "/update/";
               body := Some {| body_title := t;
                               body_completed := negb c |} |} ok :: rest ∧
     (∀ r ok', Http r ok' ∈ rest → r = {| method := GET; url := apiUrl ++ lit "/fetch/"; body := None |}) ∧
     ((∃ x pre post, tasks (app s) = pre ++ x :: post ∧ id x = i ∧
                     (∀ y, y ∈ pre → id y ≠ i) ∧ t = title x) ∨
      ((∀ y, y ∈ tasks (app s) → id y ≠ i) ∧ t = []))) ∧
  (∀ index item,
     filteredTasks (app s) !! index = Some item →
     press_checkbox show_id server index s =
       toggleComplete show_id server (id item) (completed item) s).
Proof.
  split.
  - pose proof (find_first (λ t, bool_decide (id t = i)) (tasks (app s))) as Hfind.
    exists (or_empty (title <$> List.find (λ t, bool_decide (id t = i)) (tasks (app s)))).
    assert (Htitle :
      (∃ x pre post, tasks (app s) = pre ++ x :: post ∧ id x = i ∧
           (∀ y, y ∈ pre → id y ≠ i) ∧
           or_empty (title <$> List.find (λ t, bool_decide (id t = i)) (tasks (app s)))
             = title x) ∨
      ((∀ y, y ∈ tasks (app s) → id y ≠ i) ∧
       or_empty (title <$> List.find (λ t, bool_decide (id t = i)) (tasks (app s)))
         = [])).
    { destruct (List.find _ _) as [x|].
      - left. destruct Hfind as (pre & post & Hl & Hx & Hpre).
        exists x, pre, post. split; [exact Hl|].
        split; [apply bool_decide_eq_true in Hx; exact Hx|].
        split; [|apply or_empty_Some].
        intros y Hy. apply Hpre in Hy. apply bool_decide_eq_false in Hy. exact Hy.
      - right. split; [|reflexivity].
        intros y Hy. apply Hfind in Hy. apply bool_decide_eq_false in Hy. exact Hy. }
    handler. settle; [settle|]; do 2 eexists;
      (split; [reflexivity|]); (split; [|exact Htitle]);
      intros r ok' Hin; in_events; reflexivity.
  - intros index item Hrow. unfold press_checkbox, bind, getState. simpl.
    rewrite Hrow.
    destruct (toggleComplete show_id server (id item) (completed item) s) as [[[]|e] s' evs];
      reflexivity.
Qed.

(** C5, as the code has it.  With a title that is neither empty nor
    whitespace-only, [addTask] sends one creation request: the POST to
    [/create/] whose body has that title and [completed = false].  When it
    resolves, the next thing is the fetch of the full list and no request
    follows; when it is rejected, no request follows at all. *)
Theorem create_then_refetch s :
  ¬ blank (task (app s)) →
  ∃ ok rest,
    events (addTask server s) =
      Http {| method := POST; url := apiUrl ++ lit "/create/";
              body := Some {| body_title := task (app s);
                              body_completed := false |} |} ok :: rest ∧
    (if ok
     then ∃ ok' rest', rest = Http {| method := GET; url := apiUrl ++ lit "/fetch/"; body := None |} ok' :: rest' ∧
                       ∀ r ok'', Http r ok'' ∉ rest'
     else ∀ r ok', Http r ok' ∉ rest).
Proof.
  intros Hb. apply addTask_not_blank in Hb.
  handler. rewrite Hb. settle; [settle|].
  - do 2 eexists. split; [reflexivity|]. do 2 eexists. split; [reflexivity|].
    intros r ok'' Hin. in_events.
  - do 2 eexists. split; [reflexivity|]. do 2 eexists. split; [reflexivity|].
    intros r ok'' Hin. in_events.
  - do 2 eexists. split; [reflexivity|]. intros r ok' Hin. in_events.
Qed.

(** C6, as the code has it.  Saving the edit of the row [index] sends one
    update request: the PUT to [/id/update/], [id] being that of the task
    at [index] of the local list, whose body has the edited title and, as
    [completed], that task's own flag.  When it resolves, the next thing
    is the fetch of the full list and no request follows; when it is
    rejected, no request follows at all. *)
Theorem update_keeps_completed s index (t : Task Id) :
  tasks (app s) !! index = Some t →
  ∃ ok rest,
    events (confirmEdit show_id server index s) =
      Http {| method := PUT;
              url := apiUrl ++ lit "/" ++ show_id (id t) ++ lit "/update/";
              body := Some {| body_title := editedTask (app s);
                              body_completed := completed t |} |} ok :: rest ∧
    (if ok
     then ∃ ok' rest', rest = Http {| method := GET; url := apiUrl ++ lit "/fetch/"; body := None |} ok' :: rest' ∧
                       ∀ r ok'', Http r ok'' ∉ rest'
     else ∀ r ok', Http r ok' ∉ rest).
Proof.
  intros Ht. handler. rewrite Ht. simpl. settle; [settle|].
  - do 2 eexists. split; [reflexivity|]. do 2 eexists. split; [reflexivity|].
    intros r ok'' Hin. in_events.
  - do 2 eexists. split; [reflexivity|]. do 2 eexists. split; [reflexivity|].
    intros r ok'' Hin. in_events.
  - do 2 eexists. split; [reflexivity|]. intros r ok' Hin. in_events.
Qed.

(** C7.  Take any operation but the fetch, and the request it is to send.
    When the service accepts that request, the operation sends it, then
    asks once for the full list, and sends nothing more; when the service
    rejects it, the operation sends it and nothing more, so no fetch. *)
Theorem one_refetch_after_success op s r (reply : Reply Id) (w : World) :
  op ≠ fetchAll →
  spec_request show_id op (app s) = Some r →
  server r (world s) = (reply, w) →
  let o := perform show_id server op s in
  match reply with
  | Resolved _ =>
      ∃ ok rest,
        events o = Http r true :: Http {| method := GET; url := apiUrl ++ lit "/fetch/"; body := None |} ok :: rest ∧
        ∀ r' ok', Http r' ok' ∉ rest
  | Rejected _ =>
      ∃ rest,
        events o = Http r false :: rest ∧
        ∀ r' ok', Http r' ok' ∉ rest
  end.
Proof.
  intros Hop Hreq Hserver. cbv zeta.
  destruct op as [| |i c|index|i]; contract_request Hreq;
    try (destruct Hop; reflexivity).
  - assert (Hb : str_eqb (trim (task (app s))) [] = false)
      by (apply addTask_not_blank; assumption).
    handler. rewrite Hb, Hserver. destruct reply as [data|reason]; simpl.
    + settle; do 2 eexists; (split; [reflexivity|]);
        intros r' ok' Hin; in_events.
    + eexists. split; [reflexivity|]. intros r' ok' Hin. in_events.
  - handler. rewrite toggle_title_spec, Hserver. destruct reply as [data|reason]; simpl.
    + settle; do 2 eexists; (split; [reflexivity|]);
        intros r' ok' Hin; in_events.
    + eexists. split; [reflexivity|]. intros r' ok' Hin. in_events.
  - handler. rewrite Hrow. simpl. rewrite Hserver. destruct reply as [data|reason]; simpl.
    + settle; do 2 eexists; (split; [reflexivity|]);
        intros r' ok' Hin; in_events.
    + eexists. split; [reflexivity|]. intros r' ok' Hin. in_events.
  - handler. rewrite Hserver. destruct reply as [data|reason]; simpl.
    + settle; do 2 eexists; (split; [reflexivity|]);
        intros r' ok' Hin; in_events.
    + eexists. split; [reflexivity|]. intros r' ok' Hin. in_events.
Qed.

End Properties.

(** ** The theorems at work, and where the code parts from the spec *)

(** Settle a closed decidable statement by evaluation. *)
Ltac by_evaluation :=
  match goal with
  | |- ?P => refine (bool_decide_unpack P _); vm_compute; exact I
  end.

(** C1 at work: the service holds three tasks, one of them completed. *)
Lemma filtered_view_of_fetch_witness :
  server_static fetch_request three_tasks = (Resolved three_tasks, three_tasks) ∧
  filteredTasks
    (app (final (setFilter (lit "completed")
       (final (fetchTasks server_static (sys_of initial three_tasks))))))
  = [call_mom].
Proof.
  split; [reflexivity|].
  apply (filtered_view_of_fetch server_static (sys_of initial three_tasks)
           three_tasks three_tasks (lit "completed") eq_refl).
  reflexivity.
Defined.

(** C2 at work: each of the five operations while the service is
    unreachable, with a title typed and the second row in edit. *)
Lemma failed_call_keeps_tasks_witness :
  let s := sys_of {| tasks := three_tasks; task := lit "buy milk";
                     editingIndex := Some 1; editedTask := lit "call dad";
                     filter := lit "all"; darkMode := false |} () in
  Forall (λ op,
    ∃ r,
      spec_request show_N op (app s) = Some r ∧
      server_down r (world s) = (Rejected (lit "Network Error"), ()) ∧
      app (final (perform show_N server_down op s)) = app s ∧
      ∃ label message,
        events (perform show_N server_down op s) =
          [Http r false; ConsoleError label (AxiosError (lit "Network Error"));
           AlertShown (lit "Error") message])
    [fetchAll; create; toggle 2%N true; update 1; remove 2%N].
Proof.
  intros s.
  repeat (apply Forall_cons; split;
    [eexists; split; [reflexivity|]; split; [reflexivity|];
     match goal with
     | |- context [perform show_N server_down ?op s] =>
         match goal with
         | |- context [Http ?r false] =>
             exact (proj1 (failed_call_keeps_tasks show_N server_down op s r
                             (Rejected (lit "Network Error")) ()
                             eq_refl eq_refl)
                      (lit "Network Error") eq_refl)
         end
     end|]).
  apply Forall_nil_2.
Defined.

(** C4 at work: a space, a tab and a no-break space. *)
Lemma blank_title_is_noop_witness :
  let s := sys_of (typed three_tasks [32; 9; 160]%N) three_tasks in
  blank (task (app s)) ∧
  addTask server_static s = {| result := Normal (); final := s; events := [] |}.
Proof.
  intros s.
  assert (Hb : blank (task (app s))) by by_evaluation.
  split; [exact Hb|].
  apply (blank_title_is_noop server_static s Hb).
Defined.

(** C5 at work: the service accepts the request, the list is asked for. *)
Lemma create_then_refetch_witness :
  let s := sys_of (typed [] (lit "buy milk")) three_tasks in
  ¬ blank (task (app s)) ∧
  ∃ ok rest,
    events (addTask server_static s) =
      Http {| method := POST; url := apiUrl ++ lit "/create/";
              body := Some {| body_title := lit "buy milk";
                              body_completed := false |} |} ok :: rest ∧
    (if ok
     then ∃ ok' rest', rest = Http {| method := GET; url := apiUrl ++ lit "/fetch/"; body := None |} ok' :: rest' ∧
                       ∀ r ok'', Http r ok'' ∉ rest'
     else ∀ r ok', Http r ok' ∉ rest).
Proof.
  intros s.
  assert (Hb : ¬ blank (task (app s))) by by_evaluation.
  split; [exact Hb|].
  apply (create_then_refetch server_static s Hb).
Defined.

(** C5 as stated fails: with a proper title typed and the service
    unreachable, the creation request is sent and no re-fetch follows. *)
Lemma create_rejected_no_refetch :
  let s := sys_of (typed three_tasks (lit "buy milk")) () in
  ¬ blank (task (app s)) ∧
  events (addTask server_down s) =
    [Http (create_request {| body_title := lit "buy milk";
                             body_completed := false |}) false;
     ConsoleError (lit "Error adding task:") (AxiosError (lit "Network Error"));
     AlertShown (lit "Error") (lit "Could not add task. Please try again later.")] ∧
  ¬ (∃ ok, Http fetch_request ok ∈ events (addTask server_down s)).
Proof.
  intros s. split; [by_evaluation|]. split; [reflexivity|].
  intros [ok Hin]. destruct ok; revert Hin; by_evaluation.
Qed.

(** C6 at work: the second row is renamed, its flag goes along. *)
Lemma update_keeps_completed_witness :
  let s := sys_of (editing three_tasks (lit "all") 1 (lit "call dad")) three_tasks in
  tasks (app s) !! 1 = Some call_mom ∧
  ∃ ok rest,
    events (confirmEdit show_N server_static 1 s) =
      Http {| method := PUT;
              url := apiUrl ++ lit "/" ++ show_N 2%N ++ lit "/update/";
              body := Some {| body_title := lit "call dad";
                              body_completed := true |} |} ok :: rest ∧
    (if ok
     then ∃ ok' rest', rest = Http {| method := GET; url := apiUrl ++ lit "/fetch/"; body := None |} ok' :: rest' ∧
                       ∀ r ok'', Http r ok'' ∉ rest'
     else ∀ r ok', Http r ok' ∉ rest).
Proof.
  intros s. split; [reflexivity|].
  apply (update_keeps_completed show_N server_static s 1 call_mom eq_refl).
Defined.

(** C6 as stated fails: with the service unreachable the update request is
    sent and no re-fetch follows. *)
Lemma update_rejected_no_refetch :
  let s := sys_of (editing three_tasks (lit "all") 1 (lit "call dad")) () in
  tasks (app s) !! 1 = Some call_mom ∧
  events (confirmEdit show_N server_down 1 s) =
    [Http (update_request show_N 2%N
             {| body_title := lit "call dad"; body_completed := true |}) false;
     ConsoleError (lit "Error updating task:") (AxiosError (lit "Network Error"));
     AlertShown (lit "Error") (lit "Could not update task. Please try again later.")] ∧
  ¬ (∃ ok, Http fetch_request ok ∈ events (confirmEdit show_N server_down 1 s)).
Proof.
  intros s. split; [reflexivity|]. split; [reflexivity|].
  intros [ok Hin]. destruct ok; revert Hin; by_evaluation.
Qed.

(** C7 at work: each of the four operations that change something, with
    a title typed and the second row in edit, against a service that
    accepts everything, and a deletion against one that is unreachable. *)
Lemma one_refetch_after_success_witness :
  let st := {| tasks := three_tasks; task := lit "buy milk";
               editingIndex := Some 1; editedTask := lit "call dad";
               filter := lit "all"; darkMode := false |} in
  Forall (λ op,
    op ≠ fetchAll ∧
    ∃ r,
      spec_request show_N op st = Some r ∧
      server_static r three_tasks = (Resolved three_tasks, three_tasks) ∧
      ∃ ok rest,
        events (perform show_N server_static op (sys_of st three_tasks)) =
          Http r true :: Http {| method := GET; url := apiUrl ++ lit "/fetch/"; body := None |} ok :: rest ∧
        ∀ r' ok', Http r' ok' ∉ rest)
    [create; toggle 2%N true; update 1; remove 2%N] ∧
  ∃ r,
    spec_request show_N (remove 2%N) st = Some r ∧
    server_down r () = (Rejected (lit "Network Error"), ()) ∧
    ∃ rest,
      events (perform show_N server_down (remove 2%N) (sys_of st ())) =
        Http r false :: rest ∧
      ∀ r' ok', Http r' ok' ∉ rest.
Proof.
  intros st. split.
  - repeat (apply Forall_cons; split;
      [split; [discriminate|];
       eexists; split; [reflexivity|]; split; [reflexivity|];
       match goal with
       | |- context [perform show_N server_static ?op ?s] =>
           match goal with
           | |- context [Http ?r true] =>
               exact (one_refetch_after_success show_N server_static op s r
                        (Resolved three_tasks) three_tasks
                        ltac:(discriminate) eq_refl eq_refl)
           end
       end|]).
    apply Forall_nil_2.
  - eexists. split; [reflexivity|]. split; [reflexivity|].
    exact (one_refetch_after_success show_N server_down (remove 2%N) (sys_of st ())
             (delete_request show_N 2%N) (Rejected (lit "Network Error")) ()
             ltac:(discriminate) eq_refl eq_refl).
Defined.

(** C10 at work: the blanks around the title are sent along. *)
Lemma title_sent_verbatim_witness :
  let s := sys_of (typed [] (lit "  buy milk ")) three_tasks in
  trim (task (app s)) ≠ [] ∧ trim (task (app s)) = lit "buy milk" ∧
  ∃ ok rest,
    events (addTask server_static s) =
      Http {| method := POST; url := apiUrl ++ lit "/create/";
              body := Some {| body_title := lit "  buy milk ";
                              body_completed := false |} |} ok :: rest.
Proof.
  intros s.
  assert (Hne : trim (task (app s)) ≠ []) by by_evaluation.
  split; [exact Hne|]. split; [reflexivity|].
  apply (title_sent_verbatim server_static s Hne).
Defined.

(** The defect the spec records for [toggleComplete]: an identifier the
    local list does not hold goes out with an empty title. *)
Example toggle_unknown_id_sends_empty_title :
  events (toggleComplete show_N server_down 7%N false
            (sys_of (showing three_tasks (lit "all")) ()))
  = [Http (update_request show_N 7%N {| body_title := []; body_completed := true |})
       false;
     ConsoleError (lit "Error toggling task completion:")
       (AxiosError (lit "Network Error"));
     AlertShown (lit "Error")
       (lit "Could not update task status. Please try again later.")].
Proof. reflexivity. Qed.

(** C9 as stated fails in its second half: a row of the rendered list
    never has an index at which the full list holds nothing, since the
    rendered list is a sublist of the full one. *)
Lemma edited_row_never_absent :
  ¬ (∃ (Id World : Type) (s : Sys Id World) (index : nat),
       filter (app s) ≠ lit "all" ∧
       is_Some (filteredTasks (app s) !! index) ∧
       tasks (app s) !! index = None).
Proof.
  intros (Id & World & s & index & _ & Hrow & Habsent).
  apply rendered_row_in_range in Hrow.
  rewrite Habsent in Hrow. destruct Hrow as [t Ht]. discriminate Ht.
Qed.

(** C9, as the code has it.  Under a filter other than [all], the edit of
    a row can read and update another task than the one the row shows:
    with only the completed tasks on screen, editing the first row loads
    the title of the first task of the full list, and saving sends the
    update to that task's identifier.  The task read is never missing,
    though: on every row of the rendered list [startEditing] completes and
    [confirmEdit] sends its request. *)
Theorem edit_reads_unfiltered_list :
  (∃ (s : Sys N ()) (index : nat) (shown looked : Task N),
     filter (app s) ≠ lit "all" ∧
     filteredTasks (app s) !! index = Some shown ∧
     tasks (app s) !! index = Some looked ∧
     id looked ≠ id shown ∧
     title looked ≠ title shown ∧
     let s' := final (press_edit index s) in
     editingIndex (app s') = Some index ∧
     editedTask (app s') = title looked ∧
     ∃ rest,
       events (press_save show_N server_down index s') =
         Http (update_request show_N (id looked)
                 {| body_title := title looked;
                    body_completed := completed looked |}) false :: rest) ∧
  (∀ (Id : Type) (Id_eq_dec : EqDecision Id) (show_id : Id → jsstring)
     (World : Type) (server : Request → World → Reply Id * World)
     (s : Sys Id World) (index : nat),
     is_Some (filteredTasks (app s) !! index) →
     ∃ t, tasks (app s) !! index = Some t ∧
          result (startEditing index s) = Normal () ∧
          ∃ ok rest,
            events (confirmEdit show_id server index s) =
              Http (update_request show_id (id t)
                      {| body_title := editedTask (app s);
                         body_completed := completed t |}) ok :: rest).
Proof.
  split.
  - exists (sys_of (showing three_tasks (lit "completed")) ()), 0, call_mom, buy_milk.
    split; [by_evaluation|]. split; [reflexivity|]. split; [reflexivity|].
    split; [by_evaluation|]. split; [by_evaluation|].
    split; [reflexivity|]. split; [reflexivity|].
    eexists. reflexivity.
  - intros Id Id_eq_dec show_id World server s index Hrow.
    apply rendered_row_in_range in Hrow. destruct Hrow as [t Ht].
    exists t. split; [exact Ht|].
    split; [apply (startEditing_in_range s index t Ht)|].
    apply (confirmEdit_in_range show_id server s index t Ht).
Qed.

(** ** Beyond the spec: the rest of the component *)

(** Unfold what a press on a row runs, then the handler behind it. *)
Ltac pressed :=
  unfold gesture, press_checkbox, press_edit, press_save, press_delete,
    press_filter, type_edit, bind, getState; simpl.

Section Component.

Context {Id : Type} `{EqDecision Id} (show_id : Id → jsstring).
Context {World : Type} (server : Request → World → Reply Id * World).

Implicit Types (s : Sys Id World) (st : AppState Id) (op : Operation Id).
Implicit Types (r : Request) (i : Id) (index : nat) (t : Task Id).

Lemma List_filter_sublist {A} (p : A → bool) (l : list A) :
  sublist (List.filter p l) l.
Proof.
  induction l as [|a l IH]; simpl; [constructor|].
  destruct (p a); [apply sublist_skip | apply sublist_cons]; exact IH.
Qed.

Lemma List_filter_split {A} (p : A → bool) (l : list A) :
  List.filter p l ++ List.filter (λ a, negb (p a)) l ≡ₚ l.
Proof.
  induction l as [|a l IH]; simpl; [reflexivity|].
  destruct (p a); simpl.
  - constructor. exact IH.
  - rewrite <- Permutation_middle. constructor. exact IH.
Qed.

(** X1.  The rendered list is the full list with some tasks left out: what
    stays keeps its order and is not repeated, whatever the filter cell
    holds. *)
Theorem filtered_is_sublist st :
  sublist (filteredTasks st) (tasks st) ∧
  length (filteredTasks st) ≤ length (tasks st) ∧
  (∀ t, t ∈ filteredTasks st → t ∈ tasks st).
Proof.
  assert (Hsub : sublist (filteredTasks st) (tasks st))
    by apply List_filter_sublist.
  split; [exact Hsub|]. split.
  - apply sublist_length. exact Hsub.
  - intros t Ht. eapply sublist_subseteq; [exact Hsub | exact Ht].
Qed.

(** X2.  The filters [completed] and [pending] split the list: together
    the two views hold every task exactly once, and no task is in both. *)
Theorem completed_and_pending_split s :
  let done := filteredTasks (app (final (setFilter (lit "completed") s))) in
  let todo := filteredTasks (app (final (setFilter (lit "pending") s))) in
  done ++ todo ≡ₚ tasks (app s) ∧
  length done + length todo = length (tasks (app s)) ∧
  (∀ t, t ∈ done → t ∉ todo).
Proof.
  intros done todo.
  assert (Hdone : done = List.filter completed (tasks (app s))) by reflexivity.
  assert (Htodo : todo = List.filter (λ t, negb (completed t)) (tasks (app s)))
    by reflexivity.
  assert (Hperm : done ++ todo ≡ₚ tasks (app s)).
  { rewrite Hdone, Htodo. apply List_filter_split. }
  split; [exact Hperm|]. split.
  - rewrite <- (Permutation_length Hperm), length_app. reflexivity.
  - intros t H1 H2. rewrite Hdone in H1. rewrite Htodo in H2.
    apply list_elem_of_In, filter_In in H1. apply list_elem_of_In, filter_In in H2.
    destruct H1 as [_ H1]. destruct H2 as [_ H2].
    rewrite H1 in H2. discriminate H2.
Qed.

(** X3.  A filter cell holding anything but [completed] or [pending] shows
    the whole list: the comparison is exact, so [Completed] is not
    [completed]. *)
Theorem other_filter_shows_all st :
  filter st ≠ lit "completed" → filter st ≠ lit "pending" →
  filteredTasks st = tasks st.
Proof.
  intros Hc Hp. unfold filteredTasks.
  destruct (str_eqb (filter st) (lit "completed")) eqn:Ec;
    [apply str_eqb_true in Ec; contradiction|].
  destruct (str_eqb (filter st) (lit "pending")) eqn:Ep;
    [apply str_eqb_true in Ep; contradiction|].
  induction (tasks st) as [|t l IH]; simpl; [reflexivity|].
  rewrite IH. reflexivity.
Qed.

(** X4.  No operation lets an exception out: a rejected request and the
    missing task of [confirmEdit] both end in the handler's own [catch]. *)
Theorem operations_never_throw op s :
  result (perform show_id server op s) = Normal ().
Proof.
  destruct op as [| |i c|index|i]; handler.
  - settle; reflexivity.
  - destruct (str_eqb _ _); simpl; [reflexivity|].
    settle; [settle|]; reflexivity.
  - settle; [settle|]; reflexivity.
  - destruct (tasks (app s) !! index) as [t|]; simpl; [|reflexivity].
    settle; [settle|]; reflexivity.
  - settle; [settle|]; reflexivity.
Qed.

(** X5.  The task list changes only by a fetch that resolved: after an
    operation the list is the one from before, or it is the answer the
    service gave to the fetch the operation ended with. *)
Theorem tasks_change_only_by_fetch op s :
  let o := perform show_id server op s in
  tasks (app (final o)) = tasks (app s) ∨
  ∃ w l pre,
    server fetch_request w = (Resolved l, world (final o)) ∧
    tasks (app (final o)) = l ∧
    events o = pre ++ [Http fetch_request true].
Proof.
  destruct op as [| |i c|index|i]; handler.
  - settle; [right|left; reflexivity].
    exists (world s), data, []. auto.
  - destruct (str_eqb _ _); simpl; [left; reflexivity|].
    settle; [settle|]; [right|left; reflexivity|left; reflexivity].
    exists w', data0, [Http (create_request
      {| body_title := task (app s); body_completed := false |}) true]. auto.
  - settle; [settle|]; [right|left; reflexivity|left; reflexivity].
    eexists w', data0, [_]. split; [exact Hreply0|]. split; reflexivity.
  - destruct (tasks (app s) !! index) as [t|]; simpl; [|left; reflexivity].
    settle; [settle|]; [right|left; reflexivity|left; reflexivity].
    eexists w', data0, [_]. split; [exact Hreply0|]. split; reflexivity.
  - settle; [settle|]; [right|left; reflexivity|left; reflexivity].
    eexists w', data0, [_]. split; [exact Hreply0|]. split; reflexivity.
Qed.

(** X6.  What an operation leaves alone: the store, the dark-mode cell, the
    filter and the text of the edit field, always; the input unless the
    operation is [create]; the row in edit unless it is [update]. *)
Theorem operations_frame op s :
  let o := perform show_id server op s in
  storage (final o) = storage s ∧
  darkMode (app (final o)) = darkMode (app s) ∧
  filter (app (final o)) = filter (app s) ∧
  editedTask (app (final o)) = editedTask (app s) ∧
  (op ≠ create → task (app (final o)) = task (app s)) ∧
  ((∀ index, op ≠ update index) →
   editingIndex (app (final o)) = editingIndex (app s)).
Proof.
  destruct op as [| |i c|index|i]; handler.
  - settle; repeat split; reflexivity.
  - destruct (str_eqb _ _); simpl;
      [repeat split; try reflexivity; intros Hne; contradiction|].
    settle; [settle|]; repeat split; try reflexivity; intros Hne; contradiction.
  - settle; [settle|]; repeat split; reflexivity.
  - destruct (tasks (app s) !! index) as [t|]; simpl.
    + settle; [settle|]; repeat split; try reflexivity;
        intros Hne; destruct (Hne index); reflexivity.
    + repeat split; reflexivity.
  - settle; [settle|]; repeat split; reflexivity.
Qed.

(** X7.  [removeTask(id)] starts with the delete request for [id]; when it
    resolves the next thing is one fetch of the full list, when it is
    rejected nothing is fetched.  The Delete button of a row calls it with
    the task that row shows, whatever the filter. *)
Theorem remove_request_then_refetch i s :
  (∃ ok rest,
     events (removeTask show_id server i s) =
       Http (delete_request show_id i) ok :: rest ∧
     (∀ r ok', Http r ok' ∈ rest → r = fetch_request) ∧
     (if ok
      then ∃ ok' rest', rest = Http fetch_request ok' :: rest' ∧ fetches rest' = 0
      else fetches rest = 0)) ∧
  (∀ index item,
     filteredTasks (app s) !! index = Some item →
     press_delete show_id server index s = removeTask show_id server (id item) s).
Proof.
  split.
  - handler. settle; [settle|]; do 2 eexists;
      (split; [reflexivity|]);
      (split; [intros r ok' Hin; in_events; reflexivity|]);
      try (do 2 eexists; split; reflexivity); reflexivity.
  - intros index item Hrow. unfold press_delete, bind, getState. simpl.
    rewrite Hrow.
    destruct (removeTask show_id server (id item) s) as [[[]|e] s' evs];
      reflexivity.
Qed.

(** X8.  Once the creation request has resolved the input is empty,
    whether or not the list could be fetched afterwards. *)
Theorem accepted_create_clears_input s r :
  Http r true ∈ events (addTask server s) → r ≠ fetch_request →
  task (app (final (addTask server s))) = [].
Proof.
  handler. destruct (str_eqb _ _); simpl; [intros Hin; in_events|].
  settle; [settle|]; intros Hin Hr; in_events; reflexivity.
Qed.

(** X9.  Once the update request has resolved no row is in edit any more,
    whether or not the list could be fetched afterwards; the text of the
    edit field is not cleared. *)
Theorem accepted_update_closes_edit s index r :
  Http r true ∈ events (confirmEdit show_id server index s) → r ≠ fetch_request →
  editingIndex (app (final (confirmEdit show_id server index s))) = None ∧
  editedTask (app (final (confirmEdit show_id server index s))) = editedTask (app s).
Proof.
  handler. destruct (tasks (app s) !! index) as [t|]; simpl;
    [|intros Hin; in_events].
  settle; [settle|]; intros Hin Hr; in_events; split; reflexivity.
Qed.

(** X10.  An operation alerts exactly when something went wrong in it (a
    request was rejected, or the task to update was missing); the alert is
    then the last thing it does, right after the line on the console, and
    there is no second one. *)
Theorem alert_iff_failure op s :
  let evs := events (perform show_id server op s) in
  ((∃ heading message, AlertShown heading message ∈ evs) ↔
   (∃ r, Http r false ∈ evs) ∨ (∃ label, ConsoleError label TypeError ∈ evs)) ∧
  (∀ heading message,
     AlertShown heading message ∈ evs →
     ∃ pre label error,
       evs = pre ++ [ConsoleError label error; AlertShown heading message] ∧
       ∀ heading' message', AlertShown heading' message' ∉ pre).
Proof.
  assert (Hcases :
    ∀ evs : list Event,
      (evs = [] ∨ (∃ r, evs = [Http r true]) ∨
       (∃ r r', evs = [Http r true; Http r' true]) ∨
       (∃ r l e h m, evs = [Http r false; ConsoleError l (AxiosError e); AlertShown h m]) ∨
       (∃ r r' l e h m, evs = [Http r true; Http r' false;
                               ConsoleError l (AxiosError e); AlertShown h m]) ∨
       (∃ l h m, evs = [ConsoleError l TypeError; AlertShown h m])) →
      ((∃ heading message, AlertShown heading message ∈ evs) ↔
       (∃ r, Http r false ∈ evs) ∨ (∃ label, ConsoleError label TypeError ∈ evs)) ∧
      (∀ heading message,
         AlertShown heading message ∈ evs →
         ∃ pre label error,
           evs = pre ++ [ConsoleError label error; AlertShown heading message] ∧
           ∀ heading' message', AlertShown heading' message' ∉ pre)).
  { intros evs [->|[(r & ->)|[(r & r' & ->)|[(r & l & e & h & m & ->)|
      [(r & r' & l & e & h & m & ->)|(l & h & m & ->)]]]]].
    - split; [split|].
      + intros (h & m & Hin). in_events.
      + intros [(r & Hin)|(l & Hin)]; in_events.
      + intros h m Hin. in_events.
    - split; [split|].
      + intros (h & m & Hin). in_events.
      + intros [(r0 & Hin)|(l & Hin)]; in_events.
      + intros h m Hin. in_events.
    - split; [split|].
      + intros (h & m & Hin). in_events.
      + intros [(r0 & Hin)|(l & Hin)]; in_events.
      + intros h m Hin. in_events.
    - split; [split|].
      + intros _. left. exists r. apply list_elem_of_here.
      + intros _. alert_shown.
      + intros h' m' Hin. in_events. exists [Http r false], l, (AxiosError e).
        split; [reflexivity|]. intros h0 m0 Hin. in_events.
    - split; [split|].
      + intros _. left. exists r'. apply list_elem_of_further, list_elem_of_here.
      + intros _. alert_shown.
      + intros h' m' Hin. in_events.
        exists [Http r true; Http r' false], l, (AxiosError e).
        split; [reflexivity|]. intros h0 m0 Hin. in_events.
    - split; [split|].
      + intros _. right. exists l. apply list_elem_of_here.
      + intros _. alert_shown.
      + intros h' m' Hin. in_events. exists [], l, TypeError.
        split; [reflexivity|]. intros h0 m0 Hin. in_events. }
  intros evs. apply Hcases. subst evs.
  destruct op as [| |i c|index|i]; handler.
  - settle; eauto 12.
  - destruct (str_eqb _ _); simpl; [eauto|].
    settle; [settle|]; eauto 15.
  - settle; [settle|]; eauto 15.
  - destruct (tasks (app s) !! index) as [t|]; simpl; [|eauto 15].
    settle; [settle|]; eauto 15.
  - settle; [settle|]; eauto 15.
Qed.

(** X11.  An edit belongs to a position, not to a task.  When the list is
    fetched again between Edit and Save, the update request goes to the
    identifier of the task that is at the position now, and its body has
    that task's [completed] flag with the title loaded from the task that
    was there before. *)
Theorem edit_follows_index s index t (l : list (Task Id)) (w : World) t' :
  tasks (app s) !! index = Some t →
  server fetch_request (world s) = (Resolved l, w) →
  l !! index = Some t' →
  ∃ ok rest,
    events (confirmEdit show_id server index
              (final (fetchTasks server (final (startEditing index s))))) =
      Http {| method := PUT;
              url := apiUrl ++ lit "/" ++ show_id (id t') ++ lit "/update/";
              body := Some {| body_title := title t;
                              body_completed := completed t' |} |} ok
      :: rest.
Proof.
  intros Ht Hfetch Ht'.
  assert (Hstart : final (startEditing index s) =
    {| app := {| tasks := tasks (app s); task := task (app s);
                 editingIndex := Some index; editedTask := title t;
                 filter := filter (app s); darkMode := darkMode (app s) |};
       world := world s; storage := storage s |}).
  { handler. rewrite Ht. reflexivity. }
  rewrite Hstart.
  destruct (fetchTasks_cases server
    {| app := {| tasks := tasks (app s); task := task (app s);
                 editingIndex := Some index; editedTask := title t;
                 filter := filter (app s); darkMode := darkMode (app s) |};
       world := world s; storage := storage s |})
    as [(l' & w' & Hs & ->) | (e & w' & lbl & h & m & Hs & _)];
    simpl in Hs; rewrite Hfetch in Hs; [|discriminate].
  injection Hs as <- <-. simpl.
  match goal with
  | |- context [confirmEdit _ _ _ ?s2] =>
      exact (confirmEdit_in_range show_id server s2 index t' Ht')
  end.
Qed.

(** X12.  Under the filter [all] an edit reaches the task its row shows:
    Edit loads that task's title, and Save sends the PUT to
    [/id/update/] for that task's identifier, with the edited title and
    that task's own [completed] flag in the body. *)
Theorem edit_under_all_hits_shown_task s index (item : Task Id) :
  filter (app s) = lit "all" →
  filteredTasks (app s) !! index = Some item →
  editedTask (app (final (startEditing index s))) = title item ∧
  ∃ ok rest,
    events (confirmEdit show_id server index s) =
      Http {| method := PUT;
              url := apiUrl ++ lit "/" ++ show_id (id item) ++ lit "/update/";
              body := Some {| body_title := editedTask (app s);
                              body_completed := completed item |} |} ok :: rest.
Proof.
  intros Hall Hrow. rewrite (filteredTasks_all _ Hall) in Hrow. split.
  - apply (startEditing_in_range s index item Hrow).
  - exact (confirmEdit_in_range show_id server s index item Hrow).
Qed.

(** X13.  Past the end of the list the two edit handlers differ:
    [startEditing] throws a [TypeError] nobody catches and shows nothing,
    [confirmEdit] catches it, alerts, sends nothing and changes nothing. *)
Theorem edit_outside_list s index :
  length (tasks (app s)) ≤ index →
  (result (startEditing index s) = Thrown TypeError ∧
   events (startEditing index s) = [] ∧
   editedTask (app (final (startEditing index s))) = editedTask (app s)) ∧
  (result (confirmEdit show_id server index s) = Normal () ∧
   final (confirmEdit show_id server index s) = s ∧
   (∀ r ok, Http r ok ∉ events (confirmEdit show_id server index s)) ∧
   ∃ heading message,
     AlertShown heading message ∈ events (confirmEdit show_id server index s)).
Proof.
  intros Hlen. apply lookup_ge_None in Hlen. split.
  - handler. rewrite Hlen. simpl. auto.
  - handler. rewrite Hlen. simpl. split; [reflexivity|].
    split; [destruct s; reflexivity|]. split.
    + intros r ok Hin. in_events.
    + alert_shown.
Qed.

(** X16.  Flipping the switch negates the mode and saves it under
    [darkMode] without touching any other key; a relaunch loads the
    flipped mode; a second flip brings the first mode back. *)
Theorem flip_switch_persists s :
  let s1 := final (onValueChange s) in
  darkMode (app s1) = negb (darkMode (app s)) ∧
  storage s1 !! lit "darkMode" = Some (bool_toString (darkMode (app s1))) ∧
  (∀ key, key ≠ lit "darkMode" → storage s1 !! key = storage s !! key) ∧
  darkMode (app (final (loadMode (relaunch s1)))) = negb (darkMode (app s)) ∧
  darkMode (app (final (onValueChange s1))) = darkMode (app s).
Proof.
  handler. split; [reflexivity|]. split; [apply lookup_insert_eq|]. split.
  - intros key Hkey. apply lookup_insert_ne. congruence.
  - split.
    + unfold relaunch. simpl. rewrite lookup_insert_eq. simpl.
      destruct (darkMode (app s)); reflexivity.
    + apply negb_involutive.
Qed.

Lemma after_events_nil {A} (o : Outcome Id World A) : after_events [] o = o.
Proof. destruct o. reflexivity. Qed.

Lemma result_after_events {A} evs (o : Outcome Id World A) :
  result (after_events evs o) = result o.
Proof. destruct o. reflexivity. Qed.

Lemma final_after_events {A} evs (o : Outcome Id World A) :
  final (after_events evs o) = final o.
Proof. destruct o. reflexivity. Qed.

(** What every operation keeps, for the gestures that run one. *)
Lemma perform_keeps op s :
  let o := perform show_id server op s in
  result o = Normal () ∧ storage (final o) = storage s ∧
  darkMode (app (final o)) = darkMode (app s) ∧
  filter (app (final o)) = filter (app s).
Proof.
  destruct op as [| |i c|index|i]; handler.
  - settle; auto.
  - destruct (str_eqb _ _); simpl; [auto|]. settle; [settle|]; auto.
  - settle; [settle|]; auto.
  - destruct (tasks (app s) !! index) as [t|]; simpl; [|auto].
    settle; [settle|]; auto.
  - settle; [settle|]; auto.
Qed.

(** One gesture: it completes; the filter stays or becomes one of the
    three; the store and the mode stay, or the mode is saved. *)
Lemma gesture_summary g s :
  let o := gesture show_id server g s in
  result o = Normal () ∧
  (filter (app (final o)) = filter (app s) ∨
   filter (app (final o)) ∈ filter_types) ∧
  ((storage (final o) = storage s ∧
    darkMode (app (final o)) = darkMode (app s)) ∨
   storage (final o) =
     <[lit "darkMode" := bool_toString (darkMode (app (final o)))]> (storage s)).
Proof.
  destruct g as [|text| |k|index|text|index|index|index];
    unfold gesture, press_checkbox, press_edit, press_save, press_delete,
      press_filter, type_edit, bind, getState;
    cbv beta iota; rewrite ?after_events_nil.
  - handler. auto.
  - handler. auto.
  - destruct (perform_keeps create s) as (? & ? & ? & ?). auto.
  - destruct (filter_types !! k) as [type|] eqn:Hk; handler; [|auto].
    split; [reflexivity|]. split; [right|auto].
    apply list_elem_of_lookup. exists k. exact Hk.
  - destruct (filteredTasks (app s) !! index) as [item|]; [|handler; auto].
    destruct (perform_keeps (toggle (id item) (completed item)) s) as (? & ? & ? & ?).
    auto.
  - destruct (editingIndex (app s)) as [index|]; [|handler; auto].
    destruct (filteredTasks (app s) !! index); handler; auto.
  - destruct (filteredTasks (app s) !! index) as [item|] eqn:Hrow; [|handler; auto].
    destruct (bool_decide _); [handler; auto|].
    destruct (rendered_row_in_range (app s) index) as [t Ht]; [eauto|].
    handler. rewrite Ht. simpl. auto.
  - destruct (filteredTasks (app s) !! index) as [item|]; [|handler; auto].
    destruct (bool_decide _); [|handler; auto].
    destruct (perform_keeps (update index) s) as (? & ? & ? & ?). auto.
  - destruct (filteredTasks (app s) !! index) as [item|]; [|handler; auto].
    destruct (perform_keeps (remove (id item)) s) as (? & ? & ? & ?). auto.
Qed.

Lemma gestures_cons g gs s :
  result (gestures show_id server (g :: gs) s) =
    result (gestures show_id server gs (final (gesture show_id server g s))) ∧
  final (gestures show_id server (g :: gs) s) =
    final (gestures show_id server gs (final (gesture show_id server g s))).
Proof.
  destruct (gesture_summary g s) as (Hres & _).
  simpl. unfold bind.
  destruct (gesture show_id server g s) as [c s' evs]. simpl in *. subst c.
  rewrite result_after_events, final_after_events. auto.
Qed.

(** X17.  No sequence of gestures on the interface ends in an uncaught
    exception: the handlers catch their own failures, and Edit is only
    offered on rows whose index lies inside the full list. *)
Theorem gestures_never_throw (gs : list Gesture) s :
  result (gestures show_id server gs s) = Normal ().
Proof.
  revert s. induction gs as [|g gs IH]; intros s; [reflexivity|].
  destruct (gestures_cons g gs s) as (-> & _). apply IH.
Qed.

(** X18.  The filter cell never leaves the three values of the buttons,
    so in every state the user can reach exactly one filter button of the
    bar is drawn active. *)
Theorem one_filter_button_active (gs : list Gesture) s :
  filter (app s) ∈ filter_types →
  let st := app (final (gestures show_id server gs s)) in
  filter st ∈ filter_types ∧
  length (List.filter snd (filter_buttons st)) = 1.
Proof.
  intros Hin st.
  assert (Hinv : filter st ∈ filter_types).
  { subst st. revert s Hin. induction gs as [|g gs IH]; intros s Hin; [exact Hin|].
    destruct (gestures_cons g gs s) as (_ & ->). apply IH.
    destruct (gesture_summary g s) as (_ & [->|Hf] & _); assumption. }
  split; [exact Hinv|].
  unfold filter_buttons. unfold filter_types in Hinv.
  in_events; rewrite Hinv; reflexivity.
Qed.

(** X19.  Once the store holds the mode on screen it keeps holding it,
    whatever the user does; and no gesture writes any other key. *)
Theorem store_follows_mode (gs : list Gesture) s :
  storage s !! lit "darkMode" = Some (bool_toString (darkMode (app s))) →
  let s' := final (gestures show_id server gs s) in
  storage s' !! lit "darkMode" = Some (bool_toString (darkMode (app s'))) ∧
  (∀ key, key ≠ lit "darkMode" → storage s' !! key = storage s !! key).
Proof.
  cbv zeta. revert s. induction gs as [|g gs IH]; intros s Hagree; [simpl; auto|].
  destruct (gestures_cons g gs s) as (_ & Hfinal). rewrite Hfinal.
  destruct (gesture_summary g s) as (_ & _ & Hstore).
  assert (Hnext :
    storage (final (gesture show_id server g s)) !! lit "darkMode"
      = Some (bool_toString (darkMode (app (final (gesture show_id server g s))))) ∧
    ∀ key, key ≠ lit "darkMode" →
           storage (final (gesture show_id server g s)) !! key = storage s !! key).
  { destruct Hstore as [(Hs & Hd)|Hs].
    - rewrite Hs, Hd. auto.
    - rewrite Hs. split; [apply lookup_insert_eq|].
      intros key Hkey. apply lookup_insert_ne. congruence. }
  destruct Hnext as (Hagree' & Hother).
  destruct (IH _ Hagree') as (IH1 & IH2).
  split; [exact IH1|].
  intros key Hkey. rewrite IH2 by exact Hkey. apply Hother. exact Hkey.
Qed.

(** Over any gestures the store keeps holding the mode on screen. *)
Lemma gestures_keep_store_in_step (gs : list Gesture) s :
  storage s !! lit "darkMode" = Some (bool_toString (darkMode (app s))) →
  storage (final (gestures show_id server gs s)) !! lit "darkMode"
    = Some (bool_toString (darkMode (app (final (gestures show_id server gs s))))).
Proof.
  revert s. induction gs as [|g gs IH]; intros s Hagree; [exact Hagree|].
  destruct (gestures_cons g gs s) as (_ & Hfinal). rewrite Hfinal.
  apply IH.
  destruct (gesture_summary g s) as (_ & _ & [(Hs & Hd)|Hs]).
  - rewrite Hs, Hd. exact Hagree.
  - rewrite Hs. apply lookup_insert_eq.
Qed.

(** What the first render's effects leave behind, by what was saved. *)
Lemma mount_cases s :
  let o := mount server (relaunch s) in
  result o = Normal () ∧
  darkMode (app (final o))
    = match storage s !! lit "darkMode" with
      | Some v => str_eqb v (lit "true")
      | None => false
      end ∧
  storage (final o)
    = (if darkMode (app (final o))
       then <[lit "darkMode" := lit "true"]>
              (<[lit "darkMode" := lit "false"]> (storage s))
       else <[lit "darkMode" := lit "false"]> (storage s)) ∧
  ∃ ok rest,
    events o = Http fetch_request ok :: rest ∧ ∀ r ok', Http r ok' ∉ rest.
Proof.
  unfold mount, relaunch. handler.
  destruct (storage s !! lit "darkMode") as [v|]; settle;
    try destruct (str_eqb v (lit "true")); simpl;
    (split; [reflexivity|]); (split; [reflexivity|]); (split; [reflexivity|]);
    do 2 eexists; (split; [reflexivity|]); intros r ok' Hin; in_events.
Qed.

(** X14.  What a launch leaves behind.  After the effects of the first
    render, dark mode is on exactly when the store held ["true"] under
    [darkMode]; the store holds the string of the mode now on screen, so
    ["false"] after a first launch or over anything that was not
    ["true"]; no other key is written; and the list has been asked for
    once. *)
Theorem launch_settles_mode s :
  let o := mount server (relaunch s) in
  result o = Normal () ∧
  (darkMode (app (final o)) = true ↔
   storage s !! lit "darkMode" = Some (lit "true")) ∧
  storage (final o) !! lit "darkMode"
    = Some (bool_toString (darkMode (app (final o)))) ∧
  (∀ key, key ≠ lit "darkMode" → storage (final o) !! key = storage s !! key) ∧
  ∃ ok rest,
    events o = Http {| method := GET; url := apiUrl ++ lit "/fetch/"; body := None |} ok :: rest ∧ ∀ r ok', Http r ok' ∉ rest.
Proof.
  destruct (mount_cases s) as (Hres & Hmode & Hstore & Hev). cbv zeta in *.
  split; [exact Hres|]. split; [|split; [|split; [|exact Hev]]].
  - rewrite Hmode. destruct (storage s !! lit "darkMode") as [v|].
    + rewrite str_eqb_true. split; [intros ->; reflexivity | congruence].
    + split; discriminate.
  - rewrite Hstore. destruct (darkMode (app (final (mount server (relaunch s)))));
      apply lookup_insert_eq.
  - intros key Hkey. rewrite Hstore.
    destruct (darkMode (app (final (mount server (relaunch s)))));
      rewrite ?lookup_insert_ne by congruence; reflexivity.
Qed.

(** X15.  The preference survives a restart.  Once the store holds the
    mode on screen, then whatever the user does before closing the
    application, the mode on screen after the next launch is the mode that
    was on screen at the end, and the store holds it still. *)
Theorem preference_survives_restart (gs : list Gesture) s :
  storage s !! lit "darkMode" = Some (bool_toString (darkMode (app s))) →
  let s1 := final (gestures show_id server gs s) in
  let s2 := final (mount server (relaunch s1)) in
  darkMode (app s2) = darkMode (app s1) ∧
  storage s2 !! lit "darkMode" = Some (bool_toString (darkMode (app s1))).
Proof.
  intros Hagree s1 s2.
  assert (Hstep : storage s1 !! lit "darkMode"
                  = Some (bool_toString (darkMode (app s1))))
    by (apply gestures_keep_store_in_step; exact Hagree).
  destruct (mount_cases s1) as (_ & Hmode & Hstore & _). cbv zeta in *.
  fold s2 in Hmode, Hstore. rewrite Hstep in Hmode.
  assert (Hsame : darkMode (app s2) = darkMode (app s1)).
  { rewrite Hmode. destruct (darkMode (app s1)); reflexivity. }
  split; [exact Hsame|].
  rewrite Hstore, Hsame. destruct (darkMode (app s1)); apply lookup_insert_eq.
Qed.

Lemma count_in_edit (e : option nat) (ed : jsstring) (k : nat) (l : list (Task Id)) :
  length (List.filter in_edit
    (imap (λ n item,
             if bool_decide (e = Some (k + n))
             then {| row_checked := completed item; row_body := EditInput ed;
                     row_button := SaveButton |}
             else {| row_checked := completed item;
                     row_body := TitleText (title item) (completed item);
                     row_button := EditButton |}) l))
  = match e with
    | Some i => if bool_decide (k ≤ i < k + length l) then 1 else 0
    | None => 0
    end.
Proof.
  revert k. induction l as [|item l IH]; intros k.
  - simpl. destruct e as [i|]; [|reflexivity].
    rewrite bool_decide_eq_false_2 by lia. reflexivity.
  - rewrite imap_cons.
    rewrite (imap_ext _ (λ n item0,
      if bool_decide (e = Some (S k + n))
      then {| row_checked := completed item0; row_body := EditInput ed;
              row_button := SaveButton |}
      else {| row_checked := completed item0;
              row_body := TitleText (title item0) (completed item0);
              row_button := EditButton |}));
      [|intros n x _; simpl; replace (k + S n) with (S (k + n)) by lia; reflexivity].
    cbn [List.filter]. rewrite Nat.add_0_r.
    destruct e as [i|].
    + destruct (bool_decide (Some i = Some k)) eqn:Ek.
      * apply bool_decide_eq_true in Ek. injection Ek as ->.
        cbn [in_edit row_button length]. rewrite IH.
        rewrite bool_decide_eq_false_2 by lia.
        rewrite bool_decide_eq_true_2 by (simpl; lia). reflexivity.
      * apply bool_decide_eq_false in Ek.
        cbn [in_edit row_button]. rewrite IH.
        assert (i ≠ k) by congruence.
        destruct (bool_decide (S k ≤ i < S k + length l)) eqn:E1.
        -- apply bool_decide_eq_true in E1.
           rewrite bool_decide_eq_true_2 by (simpl; lia). reflexivity.
        -- apply bool_decide_eq_false in E1.
           rewrite bool_decide_eq_false_2 by (simpl; lia). reflexivity.
    + rewrite bool_decide_eq_false_2 by discriminate.
      cbn [in_edit row_button]. rewrite IH. reflexivity.
Qed.

(** X20.  The list draws one row per task of the rendered list, and at
    most one of them in edit: the row at the index the edit cell holds,
    showing the text of the edit field.  While that index lies past the
    end of the rendered list no row is in edit, though the cell still
    holds it. *)
Theorem rows_in_edit st :
  length (rows st) = length (filteredTasks st) ∧
  length (List.filter in_edit (rows st))
    = match editingIndex st with
      | Some i => if bool_decide (i < length (filteredTasks st)) then 1 else 0
      | None => 0
      end ∧
  (∀ index row,
     rows st !! index = Some row → in_edit row = true →
     editingIndex st = Some index ∧ row_body row = EditInput (editedTask st)).
Proof.
  split; [apply length_imap|]. split.
  - pose proof (count_in_edit (editingIndex st) (editedTask st) 0
                  (filteredTasks st)) as Hcount.
    cbn [Nat.add] in Hcount. unfold rows. rewrite Hcount.
    destruct (editingIndex st) as [i|]; [|reflexivity].
    destruct (bool_decide (i < length (filteredTasks st))) eqn:E.
    + apply bool_decide_eq_true in E.
      rewrite bool_decide_eq_true_2 by (simpl; lia). reflexivity.
    + apply bool_decide_eq_false in E.
      rewrite bool_decide_eq_false_2 by (simpl; lia). reflexivity.
  - intros index row Hrow Hedit. unfold rows in Hrow.
    rewrite list_lookup_imap in Hrow.
    destruct (filteredTasks st !! index) as [item|]; [|discriminate].
    simpl in Hrow.
    destruct (bool_decide (editingIndex st = Some index)) eqn:E.
    + apply bool_decide_eq_true in E. injection Hrow as <-. auto.
    + injection Hrow as <-. discriminate Hedit.
Qed.

(** X21.  The requests address what they should: the URLs of two updates,
    or of two deletions, are the same only for identifiers that print the
    same, and an update URL is never a deletion URL, nor either of them
    the URL of the fetch or of the creation. *)
Theorem urls_tell_requests_apart i j (b b' : Body) :
  (url (update_request show_id i b) = url (update_request show_id j b') →
   show_id i = show_id j) ∧
  (url (delete_request show_id i) = url (delete_request show_id j) →
   show_id i = show_id j) ∧
  url (update_request show_id i b) ≠ url (delete_request show_id j) ∧
  url (update_request show_id i b) ≠ url fetch_request ∧
  url (update_request show_id i b) ≠ url (create_request b') ∧
  url (delete_request show_id i) ≠ url fetch_request ∧
  url (delete_request show_id i) ≠ url (create_request b').
Proof.
  unfold update_request, delete_request, fetch_request, create_request.
  cbn [url].
  assert (Hlen : ∀ (x y : jsstring) (a c : jsstring),
            length a < length c → x ++ lit "/" ++ y ++ c ≠ x ++ lit "/" ++ a).
  { intros x y a c Hl Heq. apply app_inv_head in Heq.
    apply (f_equal (@length N)) in Heq.
    rewrite !length_app in Heq. simpl in Heq. lia. }
  repeat split.
  - intros Heq. do 2 apply app_inv_head in Heq.
    apply app_inv_tail in Heq. exact Heq.
  - intros Heq. do 2 apply app_inv_head in Heq.
    apply app_inv_tail in Heq. exact Heq.
  - intros Heq. do 2 apply app_inv_head in Heq.
    apply app_inj_2 in Heq; [|reflexivity].
    destruct Heq as [_ Heq]. vm_compute in Heq. discriminate Heq.
  - change (lit "/fetch/") with (lit "/" ++ lit "fetch/").
    apply Hlen. vm_compute. lia.
  - change (lit "/create/") with (lit "/" ++ lit "create/").
    apply Hlen. vm_compute. lia.
  - change (lit "/fetch/") with (lit "/" ++ lit "fetch/").
    apply Hlen. vm_compute. lia.
  - change (lit "/create/") with (lit "/" ++ lit "create/").
    apply Hlen. vm_compute. lia.
Qed.

End Component.

(** *** The style sheet *)

Lemma field_aligned {V V'} (key : string)
    (o : list (string * V)) (o' : list (string * V')) (v : V) (v' : V') :
  o.*1 = o'.*1 → field key o = Some v → field key o' = Some v' →
  ∃ n, o !! n = Some (key, v) ∧ o' !! n = Some (key, v').
Proof.
  unfold field. revert o'.
  induction o as [|[k x] o IH]; intros [|[k' x'] o'] Hkeys Hv Hv';
    try discriminate.
  simpl in Hkeys. injection Hkeys as <- Hkeys.
  simpl in Hv, Hv'. destruct (String.eqb_spec k key) as [->|Hne].
  - simpl in Hv, Hv'. injection Hv as <-. injection Hv' as <-.
    exists 0. auto.
  - destruct (IH o' Hkeys Hv Hv') as (n & Hn & Hn').
    exists (S n). auto.
Qed.

Lemma field_same_keys_None {V V'} (key : string)
    (o : list (string * V)) (o' : list (string * V')) :
  o.*1 = o'.*1 → field key o = None → field key o' = None.
Proof.
  unfold field. revert o'.
  induction o as [|[k x] o IH]; intros [|[k' x'] o'] Hkeys Hnone;
    try discriminate; [reflexivity|].
  simpl in Hkeys. injection Hkeys as <- Hkeys.
  simpl in Hnone |- *. destruct (String.eqb k key); [discriminate|].
  apply IH; assumption.
Qed.

(** A style has the same properties, in the same order, in every mode. *)
Lemma style_same_props (b b' : bool) (name : string) (st st' : Style) :
  field name (getStyles b) = Some st → field name (getStyles b') = Some st' →
  st.*1 = st'.*1.
Proof.
  intros Hst Hst'.
  destruct (field_aligned name (getStyles b) (getStyles b') st st')
    as (n & Hn & Hn'); [destruct b, b'; reflexivity | assumption | assumption |].
  unfold getStyles in Hn, Hn'.
  do 17 (destruct n as [|n];
         [simpl in Hn, Hn'; injection Hn as _ <-; injection Hn' as _ <-;
          reflexivity|]).
  destruct n; discriminate Hn.
Qed.

(** Two values of one property of one style, one per mode, are the same
    unless the property holds a colour. *)
Lemma differing_value_is_colour (b b' : bool) (name prop : string)
    (v v' : StyleValue) :
  style_prop (getStyles b) name prop = Some v →
  style_prop (getStyles b') name prop = Some v' →
  v ≠ v' →
  prop ∈ colour_props.
Proof.
  unfold style_prop. intros Hv Hv' Hne.
  destruct (field name (getStyles b)) as [st|] eqn:Hst; [|discriminate].
  destruct (field name (getStyles b')) as [st'|] eqn:Hst'; [|discriminate].
  pose proof (style_same_props b b' name st st' Hst Hst') as Hkeys.
  destruct (field_aligned name (getStyles b) (getStyles b') st st')
    as (n & Hn & Hn'); [destruct b, b'; reflexivity | assumption | assumption |].
  unfold getStyles in Hn, Hn'.
  destruct (field_aligned prop st st' v v' Hkeys Hv Hv') as (m & Hm & Hm').
  do 17 (destruct n as [|n];
         [simpl in Hn, Hn'; injection Hn as _ <-; injection Hn' as _ <-;
          do 9 (destruct m as [|m];
                [simpl in Hm, Hm';
                 first [ discriminate Hm
                       | injection Hm as <- <-; injection Hm' as <-;
                         first [ exfalso; apply Hne; destruct b, b'; reflexivity
                               | unfold colour_props;
                                 repeat first [apply list_elem_of_here
                                              | apply list_elem_of_further] ] ]|]);
          simpl in Hm; discriminate Hm|]).
  destruct n; discriminate Hn.
Qed.

(** X22.  The mode changes colours and nothing else.  The two sheets
    define the same styles with the same properties, in the same order;
    and whatever style and property one looks up, the two sheets give the
    same answer (the same value, or nothing in both) unless the property
    is [backgroundColor], [color] or [borderColor]. *)
Theorem mode_changes_only_colours (b b' : bool) :
  List.map (λ ns, (ns.1, (ns.2).*1)) (getStyles b)
    = List.map (λ ns, (ns.1, (ns.2).*1)) (getStyles b') ∧
  ∀ name prop : string,
    style_prop (getStyles b) name prop = style_prop (getStyles b') name prop ∨
    prop ∈ colour_props.
Proof.
  split; [destruct b, b'; reflexivity|].
  intros name prop.
  assert (Hnames : (getStyles b).*1 = (getStyles b').*1)
    by (destruct b, b'; reflexivity).
  destruct (style_prop (getStyles b) name prop) as [v|] eqn:Hv;
    destruct (style_prop (getStyles b') name prop) as [v'|] eqn:Hv'.
  - destruct (decide (v = v')) as [->|Hne]; [left; reflexivity|].
    right. exact (differing_value_is_colour b b' name prop v v' Hv Hv' Hne).
  - exfalso. unfold style_prop in Hv, Hv'.
    destruct (field name (getStyles b)) as [st|] eqn:Hst; [|discriminate].
    destruct (field name (getStyles b')) as [st'|] eqn:Hst'.
    + pose proof (style_same_props b b' name st st' Hst Hst') as Hkeys.
      rewrite (field_same_keys_None prop st' st (eq_sym Hkeys) Hv') in Hv.
      discriminate Hv.
    + rewrite (field_same_keys_None name (getStyles b') (getStyles b)
                 (eq_sym Hnames) Hst') in Hst.
      discriminate Hst.
  - exfalso. unfold style_prop in Hv, Hv'.
    destruct (field name (getStyles b')) as [st'|] eqn:Hst'; [|discriminate].
    destruct (field name (getStyles b)) as [st|] eqn:Hst.
    + pose proof (style_same_props b b' name st st' Hst Hst') as Hkeys.
      rewrite (field_same_keys_None prop st st' Hkeys Hv) in Hv'.
      discriminate Hv'.
    + rewrite (field_same_keys_None name (getStyles b) (getStyles b')
                 Hnames Hst) in Hst'.
      discriminate Hst'.
  - left. reflexivity.
Qed.

(** X23.  No text is drawn in the colour of the box behind it, in either
    mode, on an active or an idle filter button, in a completed or a
    pending row. *)
Theorem text_never_in_background_colour (darkMode active completed : bool)
    (text box : list (option Style)) :
  (text, box) ∈ drawn_texts darkMode active completed →
  ∃ c bg,
    merged_prop "color" text = Some c ∧
    merged_prop "backgroundColor" box = Some bg ∧
    c ≠ bg.
Proof.
  intros Hin. apply list_elem_of_In in Hin.
  destruct darkMode, active, completed; vm_compute in Hin;
    repeat (destruct Hin as [Hin|Hin]; [injection Hin as <- <-|]);
    try (destruct Hin);
    (do 2 eexists; split; [vm_compute; reflexivity|];
     split; [vm_compute; reflexivity | discriminate]).
Qed.

(** *** The same at work *)

(** X3 at work: a capital letter is enough. *)
Lemma other_filter_shows_all_witness :
  let st := showing three_tasks (lit "Completed") in
  filter st ≠ lit "completed" ∧ filter st ≠ lit "pending" ∧
  filteredTasks st = three_tasks.
Proof.
  intros st.
  assert (Hc : filter st ≠ lit "completed") by by_evaluation.
  assert (Hp : filter st ≠ lit "pending") by by_evaluation.
  split; [exact Hc|]. split; [exact Hp|].
  apply (other_filter_shows_all st Hc Hp).
Defined.

(** X8 at work: the creation is accepted, the fetch after it is not. *)
Lemma accepted_create_clears_input_witness :
  let s := sys_of (typed three_tasks (lit "buy milk")) 1 in
  let r := create_request {| body_title := lit "buy milk"; body_completed := false |} in
  Http r true ∈ events (addTask (server_flaky three_tasks) s) ∧
  r ≠ fetch_request ∧
  task (app (final (addTask (server_flaky three_tasks) s))) = [].
Proof.
  intros s r.
  assert (Hin : Http r true ∈ events (addTask (server_flaky three_tasks) s))
    by by_evaluation.
  assert (Hr : r ≠ fetch_request) by by_evaluation.
  split; [exact Hin|]. split; [exact Hr|].
  apply (accepted_create_clears_input (server_flaky three_tasks) s r Hin Hr).
Defined.

(** X9 at work. *)
Lemma accepted_update_closes_edit_witness :
  let s := sys_of (editing three_tasks (lit "all") 1 (lit "call dad")) 1 in
  let r := update_request show_N 2%N
             {| body_title := lit "call dad"; body_completed := true |} in
  let o := confirmEdit show_N (server_flaky three_tasks) 1 s in
  Http r true ∈ events o ∧ r ≠ fetch_request ∧
  editingIndex (app (final o)) = None ∧
  editedTask (app (final o)) = lit "call dad".
Proof.
  intros s r o.
  assert (Hin : Http r true ∈ events o) by by_evaluation.
  assert (Hr : r ≠ fetch_request) by by_evaluation.
  split; [exact Hin|]. split; [exact Hr|].
  apply (accepted_update_closes_edit show_N (server_flaky three_tasks) s 1 r Hin Hr).
Defined.

(** X11 at work: the first task is gone from the service when the list is
    fetched again, and its title lands on the second. *)
Lemma edit_follows_index_witness :
  let s := sys_of (showing three_tasks (lit "all")) [call_mom; pay_rent] in
  tasks (app s) !! 0 = Some buy_milk ∧
  server_static fetch_request (world s) = (Resolved [call_mom; pay_rent], [call_mom; pay_rent]) ∧
  [call_mom; pay_rent] !! 0 = Some call_mom ∧
  ∃ ok rest,
    events (confirmEdit show_N server_static 0
              (final (fetchTasks server_static (final (startEditing 0 s))))) =
      Http {| method := PUT;
              url := apiUrl ++ lit "/" ++ show_N 2%N ++ lit "/update/";
              body := Some {| body_title := lit "buy milk";
                              body_completed := true |} |} ok
      :: rest.
Proof.
  intros s. split; [reflexivity|]. split; [reflexivity|]. split; [reflexivity|].
  apply (edit_follows_index show_N server_static s 0 buy_milk
           [call_mom; pay_rent] [call_mom; pay_rent] call_mom
           eq_refl eq_refl eq_refl).
Defined.

(** X12 at work. *)
Lemma edit_under_all_hits_shown_task_witness :
  let s := sys_of (editing three_tasks (lit "all") 1 (lit "call dad")) () in
  filter (app s) = lit "all" ∧
  filteredTasks (app s) !! 1 = Some call_mom ∧
  editedTask (app (final (startEditing 1 s))) = lit "call mom" ∧
  ∃ ok rest,
    events (confirmEdit show_N server_down 1 s) =
      Http {| method := PUT;
              url := apiUrl ++ lit "/" ++ show_N 2%N ++ lit "/update/";
              body := Some {| body_title := lit "call dad";
                              body_completed := true |} |} ok :: rest.
Proof.
  intros s. split; [reflexivity|]. split; [reflexivity|].
  apply (edit_under_all_hits_shown_task show_N server_down s 1 call_mom
           eq_refl eq_refl).
Defined.

(** X13 at work: the empty list. *)
Lemma edit_outside_list_witness :
  let s := sys_of (showing [] (lit "all")) () in
  length (tasks (app s)) ≤ 0 ∧
  result (startEditing 0 s) = Thrown TypeError ∧
  final (confirmEdit show_N server_down 0 s) = s.
Proof.
  intros s.
  assert (Hlen : length (tasks (app s)) ≤ 0) by (simpl; lia).
  split; [exact Hlen|].
  destruct (edit_outside_list show_N server_down s 0 Hlen)
    as ((Hstart & _) & (_ & Hconfirm & _)).
  split; [exact Hstart | exact Hconfirm].
Defined.

(** X15 at work: the user ends a session in dark mode and comes back to
    it. *)
Lemma preference_survives_restart_witness :
  let s := saved_mode (lit "false") in
  let s1 := final (gestures show_N server_down a_session s) in
  let s2 := final (mount server_down (relaunch s1)) in
  storage s !! lit "darkMode" = Some (bool_toString (darkMode (app s))) ∧
  darkMode (app s1) = true ∧
  darkMode (app s2) = true ∧
  storage s2 !! lit "darkMode" = Some (lit "true").
Proof.
  intros s s1 s2.
  assert (Hagree : storage s !! lit "darkMode"
                   = Some (bool_toString (darkMode (app s)))) by by_evaluation.
  split; [exact Hagree|]. split; [reflexivity|].
  exact (preference_survives_restart show_N server_down a_session s Hagree).
Defined.

(** X18 at work. *)
Lemma one_filter_button_active_witness :
  let s := sys_of (@initial N) three_tasks in
  filter (app s) ∈ filter_types ∧
  length (List.filter snd
    (filter_buttons (app (final (gestures show_N server_static a_session s))))) = 1.
Proof.
  intros s.
  assert (Hin : filter (app s) ∈ filter_types) by by_evaluation.
  split; [exact Hin|].
  apply (one_filter_button_active show_N server_static a_session s Hin).
Defined.

(** X19 at work. *)
Lemma store_follows_mode_witness :
  let s := saved_mode (lit "false") in
  let s' := final (gestures show_N server_down a_session s) in
  storage s !! lit "darkMode" = Some (bool_toString (darkMode (app s))) ∧
  storage s' !! lit "darkMode" = Some (bool_toString (darkMode (app s'))).
Proof.
  intros s s'.
  assert (Hagree : storage s !! lit "darkMode"
                   = Some (bool_toString (darkMode (app s)))) by by_evaluation.
  split; [exact Hagree|].
  apply (store_follows_mode show_N server_down a_session s Hagree).
Defined.

(** X23 at work: the label of the active filter button in the light
    mode. *)
Lemma text_never_in_background_colour_witness :
  let text := [field "buttonText" (getStyles false)] in
  let box := [field "filterButton" (getStyles false);
              when true (field "activeFilter" (getStyles false))] in
  (text, box) ∈ drawn_texts false true false ∧
  ∃ c bg,
    merged_prop "color" text = Some c ∧
    merged_prop "backgroundColor" box = Some bg ∧
    c ≠ bg.
Proof.
  intros text box.
  assert (Hin : (text, box) ∈ drawn_texts false true false).
  { do 4 apply list_elem_of_further. apply list_elem_of_here. }
  split; [exact Hin|].
  apply (text_never_in_background_colour false true false text box Hin).
Defined.
